(** * SuperImage: the upscaling session, its resource lifecycle and the
      batch orchestrator

    A shallow embedding of

      - [scripts/src/models/real_esrgan.py]  ([MODEL_CONFIGS],
        [RealESRGANUpscaler]),
      - [scripts/src/cli.py]                 ([upscale_command]),
      - [app/src/core/image_processor.py]    ([BatchUpscaleWorker],
        [ImageProcessor]),

    as programs of a state-and-exception monad over a world made of a
    file system and an ordered trace of observable effects.  The
    third-party collaborators (urllib, OpenCV, the RealESRGANer backend,
    torch) are oracles collected in the record [Env]: what they return,
    what they raise and what the backend keeps in its attributes is
    theirs to decide.

    Left out: logging at level info, and the local variables of a call
    ([img], [output], [buffer]), which die with its frame; of
    [del img, output] and [gc.collect()] the trace keeps the
    collection.  A session holds per-call data only through the
    attributes [img] and [output] of its backend. *)

From Stdlib Require Import ZArith QArith Ascii String List Bool Lia.
From Stdlib Require Import DecimalString Floats.
From stdpp Require Import base option list gmap strings.

Open Scope string_scope.
Open Scope list_scope.

(** ** Python strings *)

Module Str.

Definition of_nat (n : nat) : string :=
  NilZero.string_of_uint (Nat.to_uint n).

Definition of_Z (z : Z) : string :=
  NilZero.string_of_int (Z.to_int z).

(** [sep.join(l)] *)
Fixpoint join (sep : string) (l : list string) : string :=
  match l with
  | [] => EmptyString
  | [x] => x
  | x :: rest => x +:+ sep +:+ join sep rest
  end.


(** [s.split(c)] for a one-character separator: never empty. *)
Fixpoint split (c : ascii) (s : string) : list string :=
  match s with
  | EmptyString => [EmptyString]
  | String a s' =>
      if Ascii.eqb a c then EmptyString :: split c s'
      else match split c s' with
           | [] => [String a EmptyString]
           | w :: ws => String a w :: ws
           end
  end.

(** [s.rfind(c)], with [None] for Python's [-1]. *)
Fixpoint rfind (c : ascii) (s : string) : option nat :=
  match s with
  | EmptyString => None
  | String a s' =>
      match rfind c s' with
      | Some i => Some (S i)
      | None => if Ascii.eqb a c then Some 0 else None
      end
  end.

(** [s[:i]] and [s[i:]] for [0 <= i]. *)
Fixpoint take (i : nat) (s : string) : string :=
  match i, s with
  | S i', String a s' => String a (take i' s')
  | _, _ => EmptyString
  end.

Fixpoint drop (i : nat) (s : string) : string :=
  match i, s with
  | S i', String _ s' => drop i' s'
  | _, _ => s
  end.

(** [repr] of a list of plain identifiers, as [str(list(d.keys()))]
    prints it: the keys of the catalog hold no quote or escape. *)
Definition repr_list (l : list string) : string :=
  "[" +:+ join ", " (map (fun s => "'" +:+ s +:+ "'") l) +:+ "]".

End Str.

(** ** pathlib (POSIX flavour)

    A [Path] is what [pathlib.PurePosixPath] keeps of a string: whether
    it is anchored at the root, and its components with empty and ["."]
    components dropped. *)

Record Path := MkPath { absolute : bool; parts : list string }.

Module PathLib.

Definition keep_part (c : string) : bool :=
  negb (String.eqb c EmptyString || String.eqb c ".").

Definition starts_with_slash (s : string) : bool :=
  match s with
  | String a _ => Ascii.eqb a "/"
  | EmptyString => false
  end.

(** [Path(s)] *)
Definition of_string (s : string) : Path :=
  {| absolute := starts_with_slash s;
     parts := List.filter keep_part (Str.split "/" s) |}.

(** [str(p)] *)
Definition str (p : Path) : string :=
  if absolute p then "/" +:+ Str.join "/" (parts p)
  else match parts p with
       | [] => "."
       | _ => Str.join "/" (parts p)
       end.

(** [p / s]: an absolute right operand replaces the left one. *)
Definition joinpath (p : Path) (s : string) : Path :=
  let q := of_string s in
  if absolute q then q
  else {| absolute := absolute p; parts := parts p ++ parts q |}.

(** [p.name] *)
Definition name (p : Path) : string := List.last (parts p) EmptyString.

(** [p.parent] *)
Definition parent (p : Path) : Path :=
  {| absolute := absolute p; parts := List.removelast (parts p) |}.

(** The test [0 < i < len(name) - 1] shared by [suffix] and [stem]. *)
Definition dot_index (nm : string) : option nat :=
  match Str.rfind "." nm with
  | Some i =>
      if (0 <? i)%nat && (S i <? String.length nm)%nat then Some i
      else None
  | None => None
  end.

(** [p.suffix] *)
Definition suffix (p : Path) : string :=
  match dot_index (name p) with
  | Some i => Str.drop i (name p)
  | None => EmptyString
  end.

(** [p.stem] *)
Definition stem (p : Path) : string :=
  match dot_index (name p) with
  | Some i => Str.take i (name p)
  | None => name p
  end.

(** Every prefix of the components, shortest first: the directories
    [mkdir(parents=True)] walks through. *)
Definition ancestors_and_self (p : Path) : list Path :=
  map (fun k => {| absolute := absolute p; parts := List.firstn k (parts p) |})
      (List.seq 1 (List.length (parts p))).

End PathLib.

(** ** Exceptions *)

Inductive exc_class :=
| ValueError | RuntimeError | OSError | AttributeError | CvError
| KeyboardInterrupt.

Record exc := Exc { exc_cls : exc_class; exc_msg : string }.

(** [isinstance(e, Exception)]: [KeyboardInterrupt] derives from
    [BaseException] only, so [except Exception] lets it through. *)
Definition is_Exception (e : exc) : bool :=
  match exc_cls e with
  | KeyboardInterrupt => false
  | _ => true
  end.

Definition is_KeyboardInterrupt (e : exc) : bool :=
  match exc_cls e with
  | KeyboardInterrupt => true
  | _ => false
  end.

(** ** The state-and-exception monad *)

Inductive res (A : Type) :=
| Ret (a : A)
| Raise (e : exc).
Arguments Ret {A} a.
Arguments Raise {A} e.

Definition M (S A : Type) : Type := S -> res A * S.

Definition ret {S A} (a : A) : M S A := fun s => (Ret a, s).

Definition raise {S A} (e : exc) : M S A := fun s => (Raise e, s).

Definition bind {S A B} (m : M S A) (k : A -> M S B) : M S B :=
  fun s =>
    match m s with
    | (Ret a, s') => k a s'
    | (Raise e, s') => (Raise e, s')
    end.

Declare Scope monad_scope.
Delimit Scope monad_scope with monad.
Notation "'let*' x ':=' m 'in' k" := (bind m (fun x => k))
  (at level 10, x pattern, m at level 100, k at level 200) : monad_scope.
Notation "m >> k" := (bind m (fun _ => k))
  (at level 90, right associativity) : monad_scope.
Open Scope monad_scope.

(** [try: body / except <classes> as e: handler e].  The handler is
    chosen by [catches]; an exception it does not catch, and one the
    handler raises, propagate.  The state reached when the exception
    was raised is kept. *)
Definition try_except {S A} (body : M S A) (catches : exc -> bool)
    (handler : exc -> M S A) : M S A :=
  fun s =>
    match body s with
    | (Ret a, s') => (Ret a, s')
    | (Raise e, s') => if catches e then handler e s' else (Raise e, s')
    end.

(** [try: body / finally: fin]: [fin] runs on every exit of [body]; an
    exception of [fin] replaces the outcome of [body]. *)
Definition try_finally {S A} (body : M S A) (fin : M S unit) : M S A :=
  fun s =>
    let '(r, s') := body s in
    match fin s' with
    | (Ret _, s'') => (r, s'')
    | (Raise e, s'') => (Raise e, s'')
    end.

(** A call that touches no state of ours: its outcome is given. *)
Definition pure_call {S A} (r : res A) : M S A := fun s => (r, s).

Definition get {S} : M S S := fun s => (Ret s, s).
Definition modify {S} (f : S -> S) : M S unit := fun s => (Ret tt, f s).

(** ** Numbers

    [int((idx / total) * 100)] is a binary64 division and product,
    truncated towards zero; the primitive floats are binary64 too. *)

Definition float_of_nat (n : nat) : float :=
  PrimFloat.of_uint63 (Uint63.of_Z (Z.of_nat n)).

(** [int(x)] for a finite [x]. *)
Definition int_of_float (x : float) : Z :=
  match Prim2SF x with
  | S754_finite sgn m e =>
      let v := if (0 <=? e)%Z then (Z.pos m * 2 ^ e)%Z
               else (Z.pos m / 2 ^ (- e))%Z in
      if sgn then (- v)%Z else v
  | _ => 0%Z
  end.

Definition percent (idx total : nat) : Z :=
  int_of_float (float_of_nat idx / float_of_nat total * float_of_nat 100)%float.

(** ** The world: a file system and a trace *)

(** What a path names: a regular file, a directory, or something that
    cannot even be examined ([stat] fails with [EACCES], as under a
    directory that may not be searched). *)
Inductive node :=
| File (content : string)
| Dir
| Denied.

Inductive stream := Stdout | Stderr.

(** The Qt signals of the workers and of the processor. *)
Inductive signal :=
| SigProgress (pct : Z) (msg : string)
| SigFinished (success_count total : Z)
| SigError (msg : string).

Inductive event :=
| EvStat (p : string)                 (* [Path.exists], [Path.is_file] *)
| EvMkdir (p : string)                (* [Path.mkdir] *)
| EvFetch (url p : string)            (* [urllib.request.urlretrieve] *)
| EvRead (p : string)                 (* [np.fromfile], loading weights *)
| EvWrite (p : string)                (* [ndarray.tofile] *)
| EvEmptyCache                        (* [torch.cuda.empty_cache()] *)
| EvGcCollect                         (* [gc.collect()] *)
| EvLogError (msg : string)           (* [logger.error] *)
| EvPrint (out : stream) (msg : string)
| EvSignal (sg : signal)             (* [Signal.emit] *)
| EvUpscaleCall (input_path output_path : string)   (* call log *)
| EvUpscaleReturn (success : bool)                  (* call log *)
| EvCleanupCall.                                    (* call log *)

(** File-system and network activity, as opposed to the rest of the
    trace (logging, signals, the call log). *)
Definition is_io (e : event) : bool :=
  match e with
  | EvStat _ | EvMkdir _ | EvFetch _ _ | EvRead _ | EvWrite _ => true
  | _ => false
  end.

Definition is_network (e : event) : bool :=
  match e with
  | EvFetch _ _ => true
  | _ => false
  end.

Record World := MkWorld { fs : gmap string node; trace : list event }.

Definition snoc (w : World) (e : event) : World :=
  {| fs := fs w; trace := trace w ++ [e] |}.

Definition emit (e : event) : M World unit :=
  modify (fun w => snoc w e).

Definition set_node (p : string) (n : node) : M World unit :=
  modify (fun w => {| fs := <[p := n]> (fs w); trace := trace w |}).

Definition os_error (errno what p : string) : exc :=
  Exc OSError ("[Errno " +:+ errno +:+ "] " +:+ what +:+ ": '" +:+ p +:+ "'").

(** The file system, as far as the program looks at it: keys are
    paths as [str] prints them, relative ones being relative to the
    working directory; what is not in the map does not exist. *)
Module FS.

Definition is_dir (w : World) (p : Path) : bool :=
  match parts p with
  | [] => true
  | _ => match fs w !! PathLib.str p with
         | Some Dir => true
         | _ => false
         end
  end.

(** Whether [p] names something: the anchor alone always does. *)
Definition present (w : World) (p : Path) : bool :=
  match parts p with
  | [] => true
  | _ => bool_decide (is_Some (fs w !! PathLib.str p))
  end.

Definition denied (w : World) (p : Path) : bool :=
  match fs w !! PathLib.str p with
  | Some Denied => true
  | _ => false
  end.

(** [p.stat()] as [exists] and [is_file] use it: an [OSError] other
    than "no such file" is raised again. *)
Definition stat_check (p : Path) : M World unit :=
  emit (EvStat (PathLib.str p)) >>
  let* w := get in
  if denied w p
  then raise (os_error "13" "Permission denied" (PathLib.str p))
  else ret tt.

(** [p.exists()] *)
Definition exists_ (p : Path) : M World bool :=
  stat_check p >>
  let* w := get in
  ret (present w p).

(** [p.is_file()] *)
Definition is_file (p : Path) : M World bool :=
  stat_check p >>
  let* w := get in
  ret (match fs w !! PathLib.str p with
       | Some (File _) => true
       | _ => false
       end).

(** One level of [mkdir(parents=True, exist_ok=True)]. *)
Definition mkdir_one (top : Path) (d : Path) : M World unit :=
  let* w := get in
  match fs w !! PathLib.str d with
  | Some Dir => ret tt
  | Some (File _) =>
      if String.eqb (PathLib.str d) (PathLib.str top)
      then raise (os_error "17" "File exists" (PathLib.str top))
      else raise (os_error "20" "Not a directory" (PathLib.str top))
  | Some Denied => raise (os_error "13" "Permission denied" (PathLib.str top))
  | None => set_node (PathLib.str d) Dir
  end.

Fixpoint mkdir_walk (top : Path) (ds : list Path) : M World unit :=
  match ds with
  | [] => ret tt
  | d :: rest => mkdir_one top d >> mkdir_walk top rest
  end.

(** [p.mkdir(parents=True, exist_ok=True)] *)
Definition mkdir_p (p : Path) : M World unit :=
  emit (EvMkdir (PathLib.str p)) >>
  mkdir_walk p (PathLib.ancestors_and_self p).

(** Reading a whole file, as [np.fromfile(path, dtype=np.uint8)]. *)
Definition read_file (p : Path) : M World string :=
  emit (EvRead (PathLib.str p)) >>
  let* w := get in
  match fs w !! PathLib.str p with
  | Some (File c) => ret c
  | Some Dir => raise (os_error "21" "Is a directory" (PathLib.str p))
  | Some Denied => raise (os_error "13" "Permission denied" (PathLib.str p))
  | None =>
      match parts p with
      | [] => raise (os_error "21" "Is a directory" (PathLib.str p))
      | _ => raise (os_error "2" "No such file or directory" (PathLib.str p))
      end
  end.

(** Creating or truncating a file and writing it whole, as
    [buffer.tofile(path)]. *)
Definition store_file (p : Path) (c : string) : M World unit :=
  let* w := get in
  if denied w p then raise (os_error "13" "Permission denied" (PathLib.str p))
  else if is_dir w p then raise (os_error "21" "Is a directory" (PathLib.str p))
  else if is_dir w (PathLib.parent p) then set_node (PathLib.str p) (File c)
  else raise (os_error "2" "No such file or directory" (PathLib.str p)).

Definition write_file (p : Path) (c : string) : M World unit :=
  emit (EvWrite (PathLib.str p)) >> store_file p c.

End FS.

(** ** The catalog *)

Record ModelConfig := { url : string; scale : Z; num_block : Z }.

(** The dict literal, in insertion order ([list(d.keys())] prints it). *)
Definition MODEL_CONFIGS : list (string * ModelConfig) :=
  [ ("RealESRGAN_x4plus",
     {| url := "https://github.com/xinntao/Real-ESRGAN/releases/download/v0.1.0/RealESRGAN_x4plus.pth";
        scale := 4; num_block := 23 |});
    ("RealESRGAN_x4plus_anime_6B",
     {| url := "https://github.com/xinntao/Real-ESRGAN/releases/download/v0.2.2.4/RealESRGAN_x4plus_anime_6B.pth";
        scale := 4; num_block := 6 |}) ].

(** [MODEL_CONFIGS[k]], and [k in MODEL_CONFIGS] as [is_Some] of it. *)
Fixpoint dict_get {V} (d : list (string * V)) (k : string) : option V :=
  match d with
  | [] => None
  | (k', v) :: rest => if String.eqb k k' then Some v else dict_get rest k
  end.

Definition dict_keys {V} (d : list (string * V)) : list string := map fst d.

(** ** The collaborators *)

Record ndarray := { height : Z; width : Z; pixels : string }.

Inductive dtype := float16 | float32.

(** The backend object: its constructor arguments and the two
    attributes [img] and [output] it sets while enhancing ([None] when
    the attribute is absent). *)
Record RealESRGANer := {
  r_scale : Z;
  r_model_path : string;
  r_num_block : Z;
  r_tile : Z;
  r_tile_pad : Z;
  r_pre_pad : Z;
  r_half : bool;
  r_gpu_id : option Z;
  r_img : option ndarray;
  r_output : option ndarray
}.

Definition set_tensors (u : RealESRGANer) (i o : option ndarray) : RealESRGANer :=
  {| r_scale := r_scale u; r_model_path := r_model_path u;
     r_num_block := r_num_block u; r_tile := r_tile u;
     r_tile_pad := r_tile_pad u; r_pre_pad := r_pre_pad u;
     r_half := r_half u; r_gpu_id := r_gpu_id u;
     r_img := i; r_output := o |}.

(** What [urlretrieve] did: the whole body, or an exception after
    possibly leaving a partial file. *)
Inductive fetch_result :=
| FetchOk (body : string)
| FetchFail (e : exc) (partial : option string).

(** What [enhance] did: the attributes it leaves on the backend, and
    its outcome. *)
Record enhance_outcome := {
  left_img : option ndarray;
  left_output : option ndarray;
  enhanced : res ndarray
}.

Record Env := {
  (** [Path(__file__).parent.parent.parent.parent] *)
  project_root : Path;
  (** [torch.cuda.is_available()] *)
  cuda_available : bool;
  (** [urllib.request.urlretrieve(url, _)] *)
  urlretrieve : string -> fetch_result;
  (** [RRDBNet(...)] then [RealESRGANer(...)] on the weights read *)
  load_weights : string -> Z -> Z -> option exc;
  (** [cv2.imdecode(buf, cv2.IMREAD_UNCHANGED)] *)
  imdecode : string -> res (option ndarray);
  (** [upsampler.enhance(img, outscale=outscale)] *)
  enhance : RealESRGANer -> ndarray -> Q -> enhance_outcome;
  (** [cv2.imencode(ext, img)] *)
  imencode : string -> ndarray -> res (bool * string)
}.

(** ** [RealESRGANUpscaler] *)

Record RealESRGANUpscaler := {
  model_name : string;
  model_config : ModelConfig;
  torch_dtype : dtype;
  device : string;
  tile : Z;
  tile_pad : Z;
  pre_pad : Z;
  upsampler : option RealESRGANer;
  model_cache_dir : Path
}.

Definition with_upsampler (self : RealESRGANUpscaler)
    (u : option RealESRGANer) : RealESRGANUpscaler :=
  {| model_name := model_name self; model_config := model_config self;
     torch_dtype := torch_dtype self; device := device self;
     tile := tile self; tile_pad := tile_pad self; pre_pad := pre_pad self;
     upsampler := u; model_cache_dir := model_cache_dir self |}.

(** The state a method runs in: the object and the world. *)
Definition Obj : Type := RealESRGANUpscaler * World.

Definition liftW {A} (m : M World A) : M Obj A :=
  fun st => (fst (m (snd st)), (fst st, snd (m (snd st)))).

Definition get_self : M Obj RealESRGANUpscaler :=
  fun st => (Ret (fst st), st).

Definition set_upsampler (u : option RealESRGANer) : M Obj unit :=
  modify (fun st : Obj => (with_upsampler (fst st) u, snd st)).

Definition log_error (msg : string) : M Obj unit :=
  liftW (emit (EvLogError msg)).

(** The tensors the backend of a session still holds. *)
Definition held_tensors (self : RealESRGANUpscaler) : list ndarray :=
  match upsampler self with
  | Some u => option_list (r_img u) ++ option_list (r_output u)
  | None => []
  end.

Section Upscaler.

Variable env : Env.

Definition unknown_model (name : string) : exc :=
  Exc ValueError ("Unknown model: " +:+ name +:+ ". Available models: "
                  +:+ Str.repr_list (dict_keys MODEL_CONFIGS)).

(** [RealESRGANUpscaler.__init__] *)
Definition init (name : string) (dev : option string) (dt : dtype)
    (t t_pad p_pad : Z) : M World RealESRGANUpscaler :=
  match dict_get MODEL_CONFIGS name with
  | None => raise (unknown_model name)
  | Some cfg =>
      let auto := if cuda_available env then "cuda" else "cpu" in
      let cache := PathLib.joinpath (project_root env) "models" in
      FS.mkdir_p cache >>
      ret {| model_name := name; model_config := cfg; torch_dtype := dt;
             device := match dev with
                       | Some d => if String.eqb d EmptyString then auto else d
                       | None => auto
                       end;
             tile := t; tile_pad := t_pad; pre_pad := p_pad;
             upsampler := None; model_cache_dir := cache |}
  end.

(** [RealESRGANUpscaler(model_name=name)] and
    [RealESRGANUpscaler(model_name, tile, tile_pad, pre_pad)] *)
Definition init_default (name : string) : M World RealESRGANUpscaler :=
  init name None float16 400 10 0.

(** [urllib.request.urlretrieve(url, path)] *)
Definition urlretrieve_to (u : string) (p : Path) : M World unit :=
  emit (EvFetch u (PathLib.str p)) >>
  match urlretrieve env u with
  | FetchOk body => FS.store_file p body
  | FetchFail e partial =>
      match partial with
      | Some c => try_except (FS.store_file p c) (fun _ => true) (fun _ => ret tt)
      | None => ret tt
      end >> raise e
  end.

Definition weights_path (self : RealESRGANUpscaler) : Path :=
  PathLib.joinpath (model_cache_dir self) (model_name self +:+ ".pth").

(** [RealESRGANUpscaler._get_model_path] *)
Definition _get_model_path : M Obj Path :=
  let* self := get_self in
  let model_path := weights_path self in
  let* present := liftW (FS.exists_ model_path) in
  (if negb present then
     let u := url (model_config self) in
     try_except (liftW (urlretrieve_to u model_path)) is_Exception
       (fun e => raise (Exc RuntimeError
          ("Failed to download model from " +:+ u +:+ ": " +:+ exc_msg e)))
   else ret tt) >>
  ret model_path.

(** [RealESRGANUpscaler._load_upsampler] *)
Definition _load_upsampler : M Obj unit :=
  let* self := get_self in
  match upsampler self with
  | Some _ => ret tt
  | None =>
      try_except
        (let* model_path := _get_model_path in
         let sc := scale (model_config self) in
         let nb := num_block (model_config self) in
         let gpu := if String.eqb (device self) "cuda"
                    then (if cuda_available env then Some 0%Z else None)
                    else None in
         let* weights := liftW (FS.read_file model_path) in
         match load_weights env weights sc nb with
         | Some e => raise e
         | None =>
             set_upsampler (Some
               {| r_scale := sc; r_model_path := PathLib.str model_path;
                  r_num_block := nb; r_tile := tile self;
                  r_tile_pad := tile_pad self; r_pre_pad := pre_pad self;
                  r_half := match torch_dtype self with
                            | float16 => true
                            | float32 => false
                            end;
                  r_gpu_id := gpu; r_img := None; r_output := None |})
         end)
        is_Exception
        (fun e => raise (Exc RuntimeError
           ("Failed to load Real-ESRGAN model: " +:+ exc_msg e)))
  end.

(** [self.upsampler.enhance(img, outscale=outscale)]: the backend
    keeps what the call left in [img] and [output], also when the
    call raises. *)
Definition upsampler_enhance (img : ndarray) (outscale : Q) : M Obj ndarray :=
  let* self := get_self in
  match upsampler self with
  | None => raise (Exc AttributeError
                     "'NoneType' object has no attribute 'enhance'")
  | Some u =>
      let o := enhance env u img outscale in
      set_upsampler (Some (set_tensors u (left_img o) (left_output o))) >>
      pure_call (enhanced o)
  end.

(** [del self.upsampler.img] and [del self.upsampler.output], each
    under its [hasattr] test. *)
Definition clear_upsampler_tensors : M Obj unit :=
  let* self := get_self in
  match upsampler self with
  | Some u => set_upsampler (Some (set_tensors u None None))
  | None => ret tt
  end.

Definition empty_cache_if_cuda : M Obj unit :=
  if cuda_available env then liftW (emit EvEmptyCache) else ret tt.

(** The body of the [try] of [upscale]. *)
Definition upscale_try (input_path output_path : Path) (outscale : Q)
    : M Obj bool :=
  liftW (FS.mkdir_p (PathLib.parent output_path)) >>
  _load_upsampler >>
  let* img_buffer := liftW (FS.read_file input_path) in
  let* decoded := pure_call (imdecode env img_buffer) in
  match decoded with
  | None =>
      log_error ("Failed to load image: " +:+ PathLib.str input_path) >>
      ret false
  | Some img =>
      let* output := upsampler_enhance img outscale in
      empty_cache_if_cuda >>
      clear_upsampler_tensors >>
      let* encoded :=
        pure_call (imencode env (PathLib.suffix output_path) output) in
      if fst encoded then
        liftW (FS.write_file output_path (snd encoded)) >>
        liftW (emit EvGcCollect) >>
        ret true
      else
        log_error ("Failed to encode output image: "
                   +:+ PathLib.str output_path) >>
        liftW (emit EvGcCollect) >>
        ret false
  end.

(** [RealESRGANUpscaler.upscale], without the call log. *)
Definition upscale_body (input_path output_path : Path) (outscale : Q)
    : M Obj bool :=
  let* present := liftW (FS.exists_ input_path) in
  if negb present then
    log_error ("Input image not found: " +:+ PathLib.str input_path) >>
    ret false
  else
    try_except (upscale_try input_path output_path outscale) is_Exception
      (fun e => log_error ("Upscaling failed: " +:+ exc_msg e) >> ret false).

(** [RealESRGANUpscaler.upscale]: the call and its return are written
    to the call log. *)
Definition upscale (input_path output_path : Path) (outscale : Q)
    : M Obj bool :=
  liftW (emit (EvUpscaleCall (PathLib.str input_path)
                             (PathLib.str output_path))) >>
  let* success := upscale_body input_path output_path outscale in
  liftW (emit (EvUpscaleReturn success)) >>
  ret success.

(** [RealESRGANUpscaler.cleanup] *)
Definition cleanup : M Obj unit :=
  liftW (emit EvCleanupCall) >>
  let* self := get_self in
  match upsampler self with
  | Some _ => set_upsampler None >> empty_cache_if_cuda
  | None => ret tt
  end.

End Upscaler.

(** A local variable bound to a fresh object: the method calls of
    [body] act on it, and it is dropped when the scope is left. *)
Definition with_object {A} (self : RealESRGANUpscaler) (body : M Obj A)
    : M World A :=
  fun w => (fst (body (self, w)), snd (snd (body (self, w)))).

Definition print (out : stream) (msg : string) : M World unit :=
  emit (EvPrint out msg).

Definition send (sg : signal) : M World unit := emit (EvSignal sg).

(** ** [cli.upscale_command] *)

Record Args := {
  arg_input : string;
  arg_output : string;
  arg_model : string;
  arg_prompt : string;
  arg_negative_prompt : string;
  arg_steps : Z;
  arg_guidance : Q;
  arg_noise_level : Z
}.

Section Cli.

Variable env : Env.

(** The [try] statement of [upscale_command], run on the session. *)
Definition upscale_command_try (input_path output_path : Path) : M Obj Z :=
  try_finally
    (try_except
       (let* success := upscale env input_path output_path 4 in
        if success then
          liftW (print Stdout ("✓ Successfully upscaled to: "
                               +:+ PathLib.str output_path)) >>
          ret 0%Z
        else
          liftW (print Stderr "✗ Upscaling failed") >>
          ret 1%Z)
       (fun e => is_KeyboardInterrupt e || is_Exception e)
       (fun e =>
          if is_KeyboardInterrupt e then
            liftW (print Stderr "\n✗ Upscaling cancelled") >> ret 1%Z
          else
            liftW (print Stderr ("✗ Error: " +:+ exc_msg e)) >> ret 1%Z))
    (cleanup env).

(** [upscale_command(args)] *)
Definition upscale_command (args : Args) : M World Z :=
  let input_path := PathLib.of_string (arg_input args) in
  let output_path := PathLib.of_string (arg_output args) in
  let* present := FS.exists_ input_path in
  if negb present then
    print Stderr ("Error: Input file '" +:+ PathLib.str input_path
                  +:+ "' not found") >>
    ret 1%Z
  else
    let* regular := FS.is_file input_path in
    if negb regular then
      print Stderr ("Error: '" +:+ PathLib.str input_path
                    +:+ "' is not a file") >>
      ret 1%Z
    else
      print Stdout ("Upscaling: " +:+ PathLib.str input_path +:+ " -> "
                    +:+ PathLib.str output_path) >>
      print Stdout ("Using model: " +:+ arg_model args) >>
      let* upscaler := init_default env (arg_model args) in
      with_object upscaler (upscale_command_try input_path output_path).

End Cli.

(** ** [BatchUpscaleWorker] *)

Record BatchUpscaleWorker := {
  input_paths : list string;
  output_dir : string;
  b_model_name : string;
  b_tile : Z;
  b_tile_pad : Z;
  b_pre_pad : Z;
  b_outscale : Q
}.

(** [output_dir_path / f"{input_file.stem}_upscaled{input_file.suffix}"] *)
Definition output_file (output_dir_path input_file : Path) : Path :=
  PathLib.joinpath output_dir_path
    (PathLib.stem input_file +:+ "_upscaled" +:+ PathLib.suffix input_file).

Section Batch.

Variable env : Env.

(** The [for idx, input_path in enumerate(...)] loop, from index [idx]
    on, with the count so far. *)
Fixpoint batch_loop (output_dir_path : Path) (outscale : Q) (total : nat)
    (idx : nat) (items : list string) (success_count : Z) : M Obj Z :=
  match items with
  | [] => ret success_count
  | input_path :: rest =>
      let input_file := PathLib.of_string input_path in
      let out := output_file output_dir_path input_file in
      liftW (send (SigProgress (percent idx total)
               ("Processing " +:+ Str.of_nat (idx + 1) +:+ "/"
                +:+ Str.of_nat total +:+ ": " +:+ PathLib.name input_file))) >>
      let* success := upscale env (PathLib.of_string input_path)
                        (PathLib.of_string (PathLib.str out)) outscale in
      batch_loop output_dir_path outscale total (S idx) rest
        (if success then (success_count + 1)%Z else success_count)
  end.

(** The body of the [try] of [run]. *)
Definition run_try (self : BatchUpscaleWorker) : M World unit :=
  let total := List.length (input_paths self) in
  send (SigProgress 0 ("Initializing " +:+ b_model_name self +:+ "...")) >>
  let* upscaler := init env (b_model_name self) None float16
                     (b_tile self) (b_tile_pad self) (b_pre_pad self) in
  let output_dir_path := PathLib.of_string (output_dir self) in
  FS.mkdir_p output_dir_path >>
  let* success_count :=
    with_object upscaler
      (let* n := batch_loop output_dir_path (b_outscale self) total 0
                   (input_paths self) 0 in
       cleanup env >> ret n) in
  send (SigProgress 100 "Batch processing completed!") >>
  send (SigFinished success_count (Z.of_nat total)).

(** [BatchUpscaleWorker.run] *)
Definition run (self : BatchUpscaleWorker) : M World unit :=
  try_except (run_try self) is_Exception
    (fun e =>
       send (SigError ("Batch processing error: " +:+ exc_msg e)) >>
       send (SigFinished 0 (Z.of_nat (List.length (input_paths self))))).

End Batch.

(** ** [ImageProcessor]

    The processor lives in the GUI thread; a worker is a thread object
    of which the processor sees the job it was built for and
    [isRunning()]. *)

Record Settings := {
  s_model : string;
  s_output_dir : string;
  s_tile : Z;
  s_tile_pad : Z;
  s_pre_pad : Z;
  s_outscale : Q
}.

Inductive job :=
| SingleJob (input_path output_path : string)
| BatchJob (inputs : list string).

Record Worker := {
  w_job : job;
  w_settings : Settings;
  isRunning : bool
}.

Record ImageProcessor := {
  settings : Settings;               (* what [get_settings()] returns *)
  worker : option Worker;
  emitted : list signal              (* the processor's own signals *)
}.

Definition busy_message : string := "Another operation is already running".

(** [self.worker and self.worker.isRunning()] *)
Definition worker_running (p : ImageProcessor) : bool :=
  match worker p with
  | Some w => isRunning w
  | None => false
  end.

(** [ImageProcessor.is_busy] *)
Definition is_busy (p : ImageProcessor) : bool :=
  match worker p with
  | Some w => isRunning w
  | None => false
  end.

(** Building the worker for a job and [start()]ing it. *)
Definition start_worker (p : ImageProcessor) (j : job) : ImageProcessor :=
  {| settings := settings p;
     worker := Some {| w_job := j; w_settings := settings p; isRunning := true |};
     emitted := emitted p |}.

Definition reject (p : ImageProcessor) : ImageProcessor :=
  {| settings := settings p; worker := worker p;
     emitted := emitted p ++ [SigError busy_message] |}.

(** [ImageProcessor.upscale_single] *)
Definition upscale_single (p : ImageProcessor) (input_path output_path : string)
    : ImageProcessor :=
  if worker_running p then reject p
  else start_worker p (SingleJob input_path output_path).

(** [ImageProcessor.upscale_batch] *)
Definition upscale_batch (p : ImageProcessor) (inputs : list string)
    : ImageProcessor :=
  if worker_running p then reject p
  else start_worker p (BatchJob inputs).

(** The running worker's thread ends. *)
Definition worker_finished (p : ImageProcessor) : ImageProcessor :=
  {| settings := settings p;
     worker := match worker p with
               | Some w => Some {| w_job := w_job w; w_settings := w_settings w;
                                   isRunning := false |}
               | None => None
               end;
     emitted := emitted p |}.

(** ** Observations on a trace *)

(** The [upscale] calls of a trace, as (input, output), in order. *)
Definition upscale_calls (t : list event) : list (string * string) :=
  flat_map (fun e => match e with
                     | EvUpscaleCall i o => [(i, o)]
                     | _ => []
                     end) t.

(** The values the [upscale] calls of a trace returned, in order. *)
Definition upscale_returns (t : list event) : list bool :=
  flat_map (fun e => match e with
                     | EvUpscaleReturn b => [b]
                     | _ => []
                     end) t.

Definition signals_of (t : list event) : list signal :=
  flat_map (fun e => match e with
                     | EvSignal sg => [sg]
                     | _ => []
                     end) t.

(** How often [cleanup] was invoked. *)
Definition cleanup_calls (t : list event) : nat :=
  List.length (List.filter (fun e => match e with
                                     | EvCleanupCall => true
                                     | _ => false
                                     end) t).

Definition io_events (t : list event) : list event := List.filter is_io t.

Definition network_events (t : list event) : list event :=
  List.filter is_network t.

(** What [upscale] does between its call and its return: no signal, no
    print, no entry of the call log. *)
Definition is_inner (e : event) : bool :=
  match e with
  | EvSignal _ | EvPrint _ _ | EvUpscaleCall _ _ | EvUpscaleReturn _
  | EvCleanupCall => false
  | _ => true
  end.



(** An environment whose collaborators fail with exceptions of class
    [Exception] only: nothing interrupts a call from outside. *)
Record NoInterrupt (env : Env) : Prop := {
  ni_urlretrieve : forall u e partial,
    urlretrieve env u = FetchFail e partial -> is_Exception e = true;
  ni_load_weights : forall c sc nb e,
    load_weights env c sc nb = Some e -> is_Exception e = true;
  ni_imdecode : forall c e,
    imdecode env c = Raise e -> is_Exception e = true;
  ni_enhance : forall u img q e,
    enhanced (enhance env u img q) = Raise e -> is_Exception e = true;
  ni_imencode : forall ext img e,
    imencode env ext img = Raise e -> is_Exception e = true
}.

(** The life of a session: calls of [upscale] and of [cleanup]. *)
Inductive session_step (env : Env) : Obj -> Obj -> Prop :=
| step_upscale ip op q st :
    session_step env st (snd (upscale env ip op q st))
| step_cleanup st :
    session_step env st (snd (cleanup env st)).

Inductive session_steps (env : Env) : Obj -> Obj -> Prop :=
| steps_nil st : session_steps env st st
| steps_cons st1 st2 st3 :
    session_step env st1 st2 -> session_steps env st2 st3 ->
    session_steps env st1 st3.

(** ** Properties of runs *)

(** [steps R m]: every run of [m], whatever its outcome, moves the
    state along [R]. *)
Definition steps {St A} (R : relation St) (m : M St A) : Prop :=
  forall s, R s (snd (m s)).

(** [raises_only P m]: an exception leaving [m] satisfies [P]. *)
Definition raises_only {St A} (P : exc -> Prop) (m : M St A) : Prop :=
  forall s e, fst (m s) = Raise e -> P e.

Definition isE (e : exc) : Prop := is_Exception e = true.

(** The trace only grows, by events that satisfy [P]. *)
Definition grows (P : event -> bool) : relation World :=
  fun w w' => exists t, trace w' = trace w ++ t /\ forallb P t = true.

(** Directories appear where nothing was, and nothing else changes. *)
Definition only_dirs : relation World :=
  fun w w' =>
    forall k, fs w' !! k = fs w !! k
              \/ (fs w !! k = None /\ fs w' !! k = Some Dir).

(** What cannot be examined stays so, and nothing else becomes so. *)
Definition keeps_denied : relation World :=
  fun w w' => forall k, fs w' !! k = Some Denied <-> fs w !! k = Some Denied.

(** A relation on worlds, seen from a method. *)
Definition on_world (R : relation World) : relation Obj :=
  fun st st' => R (snd st) (snd st').

(** All of the session but its backend stays as constructed. *)
Definition same_config : relation Obj :=
  fun st st' => with_upsampler (fst st) None = with_upsampler (fst st') None.

Definition not_cleanup (e : event) : bool :=
  match e with
  | EvCleanupCall => false
  | _ => true
  end.

(** The world in which the [try] of [upscale] starts. *)
Definition entered (w : World) (ip op : Path) : World :=
  snoc (snoc w (EvUpscaleCall (PathLib.str ip) (PathLib.str op)))
       (EvStat (PathLib.str ip)).


(** The ways a call of [upscale] on session [self] in world [w] fails. *)
Inductive failure_mode (env : Env) (self : RealESRGANUpscaler) (w : World)
    (ip op : Path) (q : Q) : Prop :=
| missing_input :
    FS.present w ip = false -> failure_mode env self w ip op q
| download_failed e partial :
    upsampler self = None ->
    fs w !! PathLib.str (weights_path self) = None ->
    urlretrieve env (url (model_config self)) = FetchFail e partial ->
    failure_mode env self w ip op q
| load_failed :
    upsampler self = None ->
    (forall c, load_weights env c (scale (model_config self))
                 (num_block (model_config self)) <> None) ->
    failure_mode env self w ip op q
| undecodable c :
    fs w !! PathLib.str ip = Some (File c) ->
    (forall img, imdecode env c <> Ret (Some img)) ->
    failure_mode env self w ip op q
| inference_failed c img :
    fs w !! PathLib.str ip = Some (File c) ->
    imdecode env c = Ret (Some img) ->
    (forall u out, enhanced (enhance env u img q) <> Ret out) ->
    failure_mode env self w ip op q
| encode_failed :
    (forall out buf, imencode env (PathLib.suffix op) out <> Ret (true, buf)) ->
    failure_mode env self w ip op q.



(** A session that holds no tensor still holds none. *)
Definition tensor_free : relation Obj :=
  fun st st' => held_tensors (fst st) = [] -> held_tensors (fst st') = [].

(** ** Scenarios *)

Module Demo.

Definition img (c : string) : ndarray :=
  {| height := 2; width := 3; pixels := c |}.

(** A stub backend: four times the size, pixels tagged. *)
Definition up (i : ndarray) : ndarray :=
  {| height := 4 * height i; width := 4 * width i;
     pixels := "up:" +:+ pixels i |}.

Definition enhance_ok (u : RealESRGANer) (i : ndarray) (q : Q)
    : enhance_outcome :=
  {| left_img := Some i; left_output := Some (up i); enhanced := Ret (up i) |}.

Definition env_with (fetch : string -> fetch_result)
    (load : string -> Z -> Z -> option exc)
    (enh : RealESRGANer -> ndarray -> Q -> enhance_outcome)
    (enc : string -> ndarray -> res (bool * string)) : Env :=
  {| project_root := PathLib.of_string "/app";
     cuda_available := false;
     urlretrieve := fetch;
     load_weights := load;
     imdecode := fun c => if String.eqb c "garbage" then Ret None
                          else Ret (Some (img c));
     enhance := enh;
     imencode := enc |}.

Definition fetch_ok (u : string) : fetch_result := FetchOk "weights".
Definition load_ok (c : string) (sc nb : Z) : option exc := None.
Definition encode_ok (ext : string) (i : ndarray) : res (bool * string) :=
  Ret (true, "png:" +:+ pixels i).

(** Everything works. *)
Definition env : Env := env_with fetch_ok load_ok enhance_ok encode_ok.

(** The network is down. *)
Definition env_offline : Env :=
  env_with (fun _ => FetchFail (Exc OSError "Network is unreachable") None)
    load_ok enhance_ok encode_ok.

(** The weights file is not a checkpoint. *)
Definition env_bad_weights : Env :=
  env_with fetch_ok
    (fun _ _ _ => Some (Exc RuntimeError "invalid load key"))
    enhance_ok encode_ok.

(** The forward pass fails after the input tensor was stored. *)
Definition env_oom : Env :=
  env_with fetch_ok load_ok
    (fun _ i _ => {| left_img := Some i; left_output := None;
                     enhanced := Raise (Exc RuntimeError "CUDA out of memory") |})
    encode_ok.

(** The user interrupts the forward pass. *)
Definition env_interrupted : Env :=
  env_with fetch_ok load_ok
    (fun _ i _ => {| left_img := Some i; left_output := None;
                     enhanced := Raise (Exc KeyboardInterrupt EmptyString) |})
    encode_ok.

(** The encoder refuses the image. *)
Definition env_no_encoder : Env :=
  env_with fetch_ok load_ok enhance_ok (fun _ _ => Ret (false, EmptyString)).

Definition files (l : list (string * node)) : World :=
  {| fs := list_to_map l; trace := [] |}.

(** Five inputs, the third of which is not an image. *)
Definition inputs : list string :=
  ["/in/1.png"; "/in/2.png"; "/in/3.png"; "/in/4.png"; "/in/5.png"].

Definition w_third_bad : World :=
  files [("/in", Dir); ("/in/1.png", File "a"); ("/in/2.png", File "b");
         ("/in/3.png", File "garbage"); ("/in/4.png", File "d");
         ("/in/5.png", File "e")].


(** The second input lies under a directory that may not be searched. *)
Definition inputs_locked : list string :=
  ["/in/1.png"; "/locked/2.png"; "/in/3.png"].

Definition w_locked : World :=
  files [("/in", Dir); ("/in/1.png", File "a"); ("/locked/2.png", Denied);
         ("/in/3.png", File "c")].

(** The output directory is taken by a regular file. *)
Definition w_out_taken : World :=
  files [("/in", Dir); ("/in/1.png", File "a"); ("/in/2.png", File "b");
         ("/out", File "notes")].


Definition batch (paths : list string) : BatchUpscaleWorker :=
  {| input_paths := paths; output_dir := "/out";
     b_model_name := "RealESRGAN_x4plus";
     b_tile := 400; b_tile_pad := 10; b_pre_pad := 0; b_outscale := 4 |}.

(** The session [RealESRGANUpscaler("RealESRGAN_x4plus")] builds. *)
Definition session : RealESRGANUpscaler :=
  {| model_name := "RealESRGAN_x4plus";
     model_config :=
       {| url := "https://github.com/xinntao/Real-ESRGAN/releases/download/v0.1.0/RealESRGAN_x4plus.pth";
          scale := 4; num_block := 23 |};
     torch_dtype := float16; device := "cpu";
     tile := 400; tile_pad := 10; pre_pad := 0;
     upsampler := None;
     model_cache_dir := PathLib.of_string "/app/models" |}.

Definition w_one : World :=
  files [("/app", Dir); ("/app/models", Dir);
         ("/in", Dir); ("/in/1.png", File "a"); ("/in/3.png", File "garbage");
         ("/locked/2.png", Denied)].

Definition in1 : Path := PathLib.of_string "/in/1.png".
Definition in3 : Path := PathLib.of_string "/in/3.png".
Definition locked : Path := PathLib.of_string "/locked/2.png".
Definition out1 : Path := PathLib.of_string "/out/1_upscaled.png".

(** The world after a first resolution of the weights. *)
Definition w_cached : World :=
  snd (snd (_get_model_path env (session, w_one))).

(** The session after one call, and after [cleanup] on top of it. *)
Definition after_call : Obj := snd (upscale env in1 out1 4 (session, w_one)).
Definition after_cleanup : Obj := snd (cleanup env after_call).

Definition args : Args :=
  {| arg_input := "/in/1.png"; arg_output := "/out/1.png";
     arg_model := "RealESRGAN_x4plus";
     arg_prompt := "high quality, detailed, sharp, 4k";
     arg_negative_prompt := "blurry, low quality, pixelated, artifacts";
     arg_steps := 50; arg_guidance := 9; arg_noise_level := 20 |}.

End Demo.

(** * Reasoning about programs of the monad *)

Section Rules.

Context {St : Type}.

Lemma bind_Ret_inv {A B} (m : M St A) (k : A -> M St B) s b s' :
  bind m k s = (Ret b, s') ->
  exists a s1, m s = (Ret a, s1) /\ k a s1 = (Ret b, s').
Proof.
  unfold bind. destruct (m s) as [[a|e] s1]; intros H.
  - exists a, s1. split; [reflexivity | exact H].
  - discriminate H.
Qed.

Lemma bind_Ret_intro {A B} (m : M St A) (k : A -> M St B) s a s1 :
  m s = (Ret a, s1) -> bind m k s = k a s1.
Proof. unfold bind. intros ->. reflexivity. Qed.

Lemma bind_Raise_intro {A B} (m : M St A) (k : A -> M St B) s e s1 :
  m s = (Raise e, s1) -> bind m k s = (Raise e, s1).
Proof. unfold bind. intros ->. reflexivity. Qed.

Lemma try_except_Ret_inv {A} (body : M St A) catches handler s a s' :
  try_except body catches handler s = (Ret a, s') ->
  body s = (Ret a, s') \/
  exists e s1, body s = (Raise e, s1) /\ catches e = true
               /\ handler e s1 = (Ret a, s').
Proof.
  unfold try_except. destruct (body s) as [[x|e] s1]; intros H.
  - left. exact H.
  - right. exists e, s1. destruct (catches e); [auto | discriminate H].
Qed.

Section Steps.

Context (R : relation St) `{!PreOrder R}.

Lemma steps_ret {A} (a : A) : steps R (ret a).
Proof. intros s. reflexivity. Qed.

Lemma steps_raise {A} e : steps R (@raise St A e).
Proof. intros s. reflexivity. Qed.

Lemma steps_get : steps R get.
Proof. intros s. reflexivity. Qed.

Lemma steps_pure_call {A} (r : res A) : steps R (pure_call r).
Proof. intros s. reflexivity. Qed.

Lemma steps_bind {A B} (m : M St A) (k : A -> M St B) :
  steps R m -> (forall a, steps R (k a)) -> steps R (bind m k).
Proof.
  intros Hm Hk s. unfold bind. specialize (Hm s).
  destruct (m s) as [[a|e] s1]; simpl in *.
  - etransitivity; [exact Hm | apply Hk].
  - exact Hm.
Qed.

Lemma steps_try_except {A} (body : M St A) catches handler :
  steps R body -> (forall e, steps R (handler e)) ->
  steps R (try_except body catches handler).
Proof.
  intros Hb Hh s. unfold try_except. specialize (Hb s).
  destruct (body s) as [[a|e] s1]; simpl in *; [exact Hb |].
  destruct (catches e); simpl; [| exact Hb].
  etransitivity; [exact Hb | apply Hh].
Qed.

Lemma steps_try_finally {A} (body : M St A) fin :
  steps R body -> steps R fin -> steps R (try_finally body fin).
Proof.
  intros Hb Hf s. unfold try_finally. specialize (Hb s).
  destruct (body s) as [r s1]. specialize (Hf s1). simpl in *.
  destruct (fin s1) as [[u|e] s2]; simpl in *;
    etransitivity; eauto.
Qed.

End Steps.

Lemma raises_only_ret P {A} (a : A) : raises_only P (@ret St A a).
Proof. intros s e H. discriminate H. Qed.

Lemma raises_only_get P : raises_only P (@get St).
Proof. intros s e H. discriminate H. Qed.

Lemma raises_only_modify P (f : St -> St) : raises_only P (modify f).
Proof. intros s e H. discriminate H. Qed.

Lemma raises_only_raise (P : exc -> Prop) {A} e :
  P e -> raises_only P (@raise St A e).
Proof. intros HP s e' H. injection H as <-. exact HP. Qed.

Lemma raises_only_pure_call (P : exc -> Prop) {A} (r : res A) :
  (forall e, r = Raise e -> P e) -> raises_only P (@pure_call St A r).
Proof. intros H s e He. apply H. exact He. Qed.

Lemma raises_only_bind P {A B} (m : M St A) (k : A -> M St B) :
  raises_only P m -> (forall a, raises_only P (k a)) ->
  raises_only P (bind m k).
Proof.
  intros Hm Hk s e. unfold bind. specialize (Hm s).
  destruct (m s) as [[a|e'] s1]; simpl in *.
  - apply Hk.
  - intros H. injection H as <-. apply Hm. reflexivity.
Qed.

Lemma raises_only_try_except P {A} (body : M St A) catches handler :
  (forall e, catches e = true -> raises_only P (handler e)) ->
  (forall s e, fst (body s) = Raise e -> catches e = false -> P e) ->
  raises_only P (try_except body catches handler).
Proof.
  intros Hh Hb s e. unfold try_except. specialize (Hb s).
  destruct (body s) as [[a|e'] s1]; simpl in *; [discriminate |].
  destruct (catches e') eqn:Hc.
  - apply Hh. exact Hc.
  - simpl. intros H. injection H as <-. apply Hb; [reflexivity | exact Hc].
Qed.

(** A handler that catches all the body raises decides what leaves. *)
Lemma raises_only_caught (P Q : exc -> Prop) {A} (body : M St A)
    catches handler :
  raises_only Q body -> (forall e, Q e -> catches e = true) ->
  (forall e, raises_only P (handler e)) ->
  raises_only P (try_except body catches handler).
Proof.
  intros Hb Hc Hh. apply raises_only_try_except.
  - intros e _. apply Hh.
  - intros s e He Hne. apply Hb in He. apply Hc in He. congruence.
Qed.

(** [except Exception] lets through what is not an [Exception]. *)
Lemma raises_only_uncaught {A} (body : M St A) handler :
  (forall e, raises_only (fun e => is_Exception e = false) (handler e)) ->
  raises_only (fun e => is_Exception e = false)
    (try_except body is_Exception handler).
Proof.
  intros Hh. apply raises_only_try_except.
  - intros e _. apply Hh.
  - intros s e _ He. exact He.
Qed.

(** A run that raises nothing returns. *)
Lemma never_raises_returns {A} (m : M St A) :
  raises_only (fun _ => False) m -> forall s, exists a, fst (m s) = Ret a.
Proof.
  intros Hm s. specialize (Hm s). destruct (fst (m s)) as [a|e].
  - exists a. reflexivity.
  - destruct (Hm e eq_refl).
Qed.

End Rules.

Lemma raises_only_liftW P {A} (m : M World A) :
  raises_only P m -> raises_only P (liftW m).
Proof. intros Hm st e H. apply (Hm (snd st)). exact H. Qed.

(** ** How the primitives run *)

Lemma emit_run e w : emit e w = (Ret tt, snoc w e).
Proof. reflexivity. Qed.

Lemma liftW_run {A} (m : M World A) self w :
  liftW m (self, w) = (fst (m w), (self, snd (m w))).
Proof. reflexivity. Qed.

Lemma pure_call_run {St A} (r : res A) (s : St) : pure_call r s = (r, s).
Proof. reflexivity. Qed.

Lemma liftW_Ret {A} (m : M World A) self w a st' :
  liftW m (self, w) = (Ret a, st') ->
  exists w', m w = (Ret a, w') /\ st' = (self, w').
Proof.
  rewrite liftW_run. destruct (m w) as [r w']. simpl.
  intros H. injection H as -> <-. eauto.
Qed.

Lemma exists_ok p w :
  FS.denied w p = false ->
  FS.exists_ p w = (Ret (FS.present w p), snoc w (EvStat (PathLib.str p))).
Proof.
  intros H. unfold FS.exists_, FS.stat_check, bind, get. simpl.
  change (FS.denied (snoc w (EvStat (PathLib.str p))) p) with (FS.denied w p).
  rewrite H. reflexivity.
Qed.

Lemma exists_denied p w :
  FS.denied w p = true ->
  FS.exists_ p w = (Raise (os_error "13" "Permission denied" (PathLib.str p)),
                    snoc w (EvStat (PathLib.str p))).
Proof.
  intros H. unfold FS.exists_, FS.stat_check, bind, get. simpl.
  change (FS.denied (snoc w (EvStat (PathLib.str p))) p) with (FS.denied w p).
  rewrite H. reflexivity.
Qed.

Lemma exists_Ret p w b w' :
  FS.exists_ p w = (Ret b, w') ->
  FS.denied w p = false /\ b = FS.present w p
  /\ w' = snoc w (EvStat (PathLib.str p)).
Proof.
  destruct (FS.denied w p) eqn:Hd.
  - rewrite (exists_denied _ _ Hd). discriminate.
  - rewrite (exists_ok _ _ Hd). intros H. injection H as <- <-. auto.
Qed.

(** ** Relations a run moves the state along *)

Global Instance grows_preorder P : PreOrder (grows P).
Proof.
  split.
  - intros w. exists []. split; [symmetry; apply app_nil_r | reflexivity].
  - intros w1 w2 w3 (t1 & H1 & F1) (t2 & H2 & F2). exists (t1 ++ t2). split.
    + rewrite H2, H1. symmetry. apply app_assoc.
    + rewrite forallb_app, F1, F2. reflexivity.
Qed.

Global Instance only_dirs_preorder : PreOrder only_dirs.
Proof.
  split.
  - intros w k. left. reflexivity.
  - intros w1 w2 w3 H12 H23 k.
    destruct (H12 k) as [E1 | [N1 D1]], (H23 k) as [E2 | [N2 D2]].
    + left. congruence.
    + right. split; congruence.
    + right. split; congruence.
    + congruence.
Qed.

Global Instance keeps_denied_preorder : PreOrder keeps_denied.
Proof.
  split.
  - intros w k. reflexivity.
  - intros w1 w2 w3 H12 H23 k. rewrite (H23 k). apply H12.
Qed.

Global Instance on_world_preorder R `{!PreOrder R} : PreOrder (on_world R).
Proof.
  split.
  - intros st. unfold on_world. reflexivity.
  - intros s1 s2 s3. unfold on_world. intros. etransitivity; eauto.
Qed.

Global Instance same_config_preorder : PreOrder same_config.
Proof.
  split.
  - intros st. reflexivity.
  - intros s1 s2 s3. unfold same_config. congruence.
Qed.

Lemma grows_emit P e : P e = true -> steps (grows P) (emit e).
Proof.
  intros He w. exists [e]. split; [reflexivity |]. simpl. rewrite He. reflexivity.
Qed.

Lemma grows_set_node P p n : steps (grows P) (set_node p n).
Proof.
  intros w. exists []. split; [symmetry; apply app_nil_r | reflexivity].
Qed.

Lemma only_dirs_emit e : steps only_dirs (emit e).
Proof. intros w k. left. reflexivity. Qed.

Lemma keeps_denied_emit e : steps keeps_denied (emit e).
Proof. intros w k. reflexivity. Qed.

Lemma on_world_liftW R {A} (m : M World A) :
  steps R m -> steps (on_world R) (liftW m).
Proof. intros Hm st. apply Hm. Qed.

Lemma on_world_set_upsampler R `{!PreOrder R} u :
  steps (on_world R) (set_upsampler u).
Proof. intros st. unfold on_world. simpl. reflexivity. Qed.

Lemma on_world_get_self R `{!PreOrder R} : steps (on_world R) get_self.
Proof. intros st. unfold on_world. simpl. reflexivity. Qed.

Lemma same_config_liftW {A} (m : M World A) : steps same_config (liftW m).
Proof. intros st. reflexivity. Qed.

Lemma same_config_set_upsampler u : steps same_config (set_upsampler u).
Proof. intros st. reflexivity. Qed.

Lemma same_config_get_self : steps same_config get_self.
Proof. intros st. reflexivity. Qed.

Create HintDb msteps.

Global Hint Resolve grows_set_node only_dirs_emit keeps_denied_emit
  same_config_liftW same_config_set_upsampler same_config_get_self : msteps.

Global Hint Extern 1 (steps (grows _) (emit _)) =>
  apply grows_emit; reflexivity : msteps.

Global Hint Extern 1 (steps (on_world _) (set_upsampler _)) =>
  apply on_world_set_upsampler; typeclasses eauto : msteps.

Global Hint Extern 1 (steps (on_world _) get_self) =>
  apply on_world_get_self; typeclasses eauto : msteps.

(** Walks down a program, rule by rule. *)
Ltac msteps :=
  repeat (intros; first
    [ solve [auto 2 with msteps nocore]
    | apply steps_ret; solve [typeclasses eauto]
    | apply steps_raise; solve [typeclasses eauto]
    | apply steps_get; solve [typeclasses eauto]
    | apply steps_pure_call; solve [typeclasses eauto]
    | apply on_world_liftW
    | apply steps_bind; [solve [typeclasses eauto] | |]
    | apply steps_try_except; [solve [typeclasses eauto] | |]
    | apply steps_try_finally; [solve [typeclasses eauto] | |]
    | match goal with
      | |- steps _ (match ?x with _ => _ end) => destruct x eqn:?
      end ]).

Create HintDb mraises.

Ltac mraises :=
  repeat (intros; first
    [ solve [auto 2 with mraises nocore]
    | apply raises_only_ret | apply raises_only_get | apply raises_only_modify
    | apply raises_only_raise; reflexivity
    | apply raises_only_liftW
    | apply raises_only_bind
    | match goal with
      | |- raises_only _ (match ?x with _ => _ end) => destruct x eqn:?
      end ]).

(** ** The session keeps its configuration *)

Lemma same_config_load_upsampler env : steps same_config (_load_upsampler env).
Proof. unfold _load_upsampler, _get_model_path. msteps. Qed.

Lemma same_config_upscale env ip op q : steps same_config (upscale env ip op q).
Proof.
  pose proof (same_config_load_upsampler env).
  unfold upscale, upscale_body, upscale_try, upsampler_enhance,
    empty_cache_if_cuda, clear_upsampler_tensors, log_error.
  msteps.
Qed.

Lemma same_config_cleanup env : steps same_config (cleanup env).
Proof. unfold cleanup, empty_cache_if_cuda. msteps. Qed.

(** ** What the file-system operations leave alone *)

Lemma only_dirs_mkdir_one top d : steps only_dirs (FS.mkdir_one top d).
Proof.
  intros w. unfold FS.mkdir_one, bind, get. cbn.
  destruct (fs w !! PathLib.str d) as [[c| |]|] eqn:Hd.
  - destruct (String.eqb _ _); reflexivity.
  - reflexivity.
  - reflexivity.
  - intros k. cbn. destruct (decide (PathLib.str d = k)) as [<- | Hne].
    + right. rewrite lookup_insert_eq. auto.
    + left. apply lookup_insert_ne. exact Hne.
Qed.

Lemma only_dirs_mkdir_walk top ds : steps only_dirs (FS.mkdir_walk top ds).
Proof.
  pose proof (only_dirs_mkdir_one top).
  induction ds as [| d ds IH]; simpl; msteps.
Qed.

Lemma only_dirs_mkdir_p p : steps only_dirs (FS.mkdir_p p).
Proof.
  pose proof (only_dirs_mkdir_walk p). unfold FS.mkdir_p. msteps.
Qed.

Lemma only_dirs_file w w' k c :
  only_dirs w w' -> fs w !! k = Some (File c) -> fs w' !! k = Some (File c).
Proof. intros H Hk. destruct (H k) as [E | [N _]]; congruence. Qed.

Lemma only_dirs_file_back w w' k c :
  only_dirs w w' -> fs w' !! k = Some (File c) -> fs w !! k = Some (File c).
Proof. intros H Hk. destruct (H k) as [E | [_ D]]; congruence. Qed.

Lemma keeps_denied_insert w p n :
  fs w !! p <> Some Denied -> n <> Denied ->
  keeps_denied w {| fs := <[p := n]> (fs w); trace := trace w |}.
Proof.
  intros Hp Hn k. simpl. destruct (decide (p = k)) as [<- | Hne].
  - rewrite lookup_insert_eq. split; intros H; congruence.
  - rewrite lookup_insert_ne by exact Hne. reflexivity.
Qed.

Lemma keeps_denied_mkdir_one top d : steps keeps_denied (FS.mkdir_one top d).
Proof.
  intros w. unfold FS.mkdir_one, bind, get. cbn.
  destruct (fs w !! PathLib.str d) as [[c| |]|] eqn:Hd.
  - destruct (String.eqb _ _); reflexivity.
  - reflexivity.
  - reflexivity.
  - cbn. apply keeps_denied_insert; congruence.
Qed.


(** ** What a call does to the world, relation by relation *)

Section Along.

Context (R : relation World) `{!PreOrder R}.
Hypothesis R_inner : forall e, is_inner e = true -> steps R (emit e).
Hypothesis R_mkdir_one : forall top d, steps R (FS.mkdir_one top d).
Hypothesis R_store_file : forall p c, steps R (FS.store_file p c).

Hint Extern 1 (steps R (emit _)) => apply R_inner; reflexivity : msteps.
Hint Resolve R_mkdir_one R_store_file : msteps.

Lemma along_exists p : steps R (FS.exists_ p).
Proof. unfold FS.exists_, FS.stat_check. msteps. Qed.

Lemma along_mkdir_walk top ds : steps R (FS.mkdir_walk top ds).
Proof. induction ds; simpl; msteps. Qed.

Hint Resolve along_mkdir_walk : msteps.

Lemma along_mkdir_p p : steps R (FS.mkdir_p p).
Proof. unfold FS.mkdir_p. msteps. Qed.

Lemma along_read_file p : steps R (FS.read_file p).
Proof. unfold FS.read_file. msteps. Qed.

Lemma along_write_file p c : steps R (FS.write_file p c).
Proof. unfold FS.write_file. msteps. Qed.

Lemma along_urlretrieve_to env u p : steps R (urlretrieve_to env u p).
Proof. unfold urlretrieve_to. msteps. Qed.

Hint Resolve along_exists along_mkdir_p along_read_file
  along_write_file along_urlretrieve_to : msteps.

Lemma along_get_model_path env : steps (on_world R) (_get_model_path env).
Proof. unfold _get_model_path. msteps. Qed.

Hint Resolve along_get_model_path : msteps.

Lemma along_load_upsampler env : steps (on_world R) (_load_upsampler env).
Proof. unfold _load_upsampler. msteps. Qed.

Lemma along_upscale_try env ip op q :
  steps (on_world R) (upscale_try env ip op q).
Proof.
  pose proof (along_load_upsampler env).
  unfold upscale_try, upsampler_enhance, empty_cache_if_cuda,
    clear_upsampler_tensors, log_error. msteps.
Qed.

Lemma along_upscale_body env ip op q :
  steps (on_world R) (upscale_body env ip op q).
Proof.
  pose proof (along_upscale_try env ip op q).
  unfold upscale_body, log_error. msteps.
Qed.

End Along.

Lemma grows_mkdir_one P top d : steps (grows P) (FS.mkdir_one top d).
Proof. unfold FS.mkdir_one. msteps. Qed.

Lemma grows_store_file P p c : steps (grows P) (FS.store_file p c).
Proof. unfold FS.store_file. msteps. Qed.

(** Between its call and its return, [upscale] writes inner events. *)
Lemma grows_upscale_body P env ip op q :
  (forall e, is_inner e = true -> P e = true) ->
  steps (on_world (grows P)) (upscale_body env ip op q).
Proof.
  intros HP. apply along_upscale_body.
  - typeclasses eauto.
  - intros e He. apply grows_emit, HP, He.
  - apply grows_mkdir_one.
  - apply grows_store_file.
Qed.

Lemma keeps_denied_mkdir_p p : steps keeps_denied (FS.mkdir_p p).
Proof.
  apply along_mkdir_p.
  - typeclasses eauto.
  - intros e _. apply keeps_denied_emit.
  - apply keeps_denied_mkdir_one.
Qed.


(** ** What can be raised *)

Lemma raises_emit {P} e : raises_only P (emit e).
Proof. unfold emit. mraises. Qed.

Lemma raises_set_node {P} p n : raises_only P (set_node p n).
Proof. unfold set_node. mraises. Qed.

Lemma raises_set_upsampler {P} u : raises_only P (set_upsampler u).
Proof. unfold set_upsampler. mraises. Qed.

Lemma raises_get_self {P} : raises_only P get_self.
Proof. intros s e H. discriminate H. Qed.

Lemma raises_log_error {P} msg : raises_only P (log_error msg).
Proof. unfold log_error, emit. mraises. Qed.

Global Hint Resolve raises_emit raises_set_node raises_set_upsampler
  raises_get_self raises_log_error : mraises.

Lemma raises_exists p : raises_only isE (FS.exists_ p).
Proof. unfold FS.exists_, FS.stat_check. mraises. Qed.

Lemma raises_mkdir_walk top ds : raises_only isE (FS.mkdir_walk top ds).
Proof. induction ds; simpl; unfold FS.mkdir_one; mraises. Qed.

Global Hint Resolve raises_exists raises_mkdir_walk : mraises.

Lemma raises_mkdir_p p : raises_only isE (FS.mkdir_p p).
Proof. unfold FS.mkdir_p. mraises. Qed.

Lemma raises_read_file p : raises_only isE (FS.read_file p).
Proof. unfold FS.read_file. mraises. Qed.

Lemma raises_store_file p c : raises_only isE (FS.store_file p c).
Proof. unfold FS.store_file. mraises. Qed.

Global Hint Resolve raises_mkdir_p raises_read_file raises_store_file : mraises.

Lemma raises_write_file p c : raises_only isE (FS.write_file p c).
Proof. unfold FS.write_file. mraises. Qed.

Global Hint Resolve raises_write_file : mraises.

Section Calm.

Variable env : Env.
Hypothesis calm : NoInterrupt env.

Lemma raises_urlretrieve_to u p : raises_only isE (urlretrieve_to env u p).
Proof.
  unfold urlretrieve_to. mraises.
  - apply raises_only_try_except; [mraises | discriminate].
  - intros _. apply raises_only_raise. eapply ni_urlretrieve; eauto.
Qed.

Hint Resolve raises_urlretrieve_to : mraises.

Lemma raises_get_model_path : raises_only isE (_get_model_path env).
Proof.
  unfold _get_model_path. mraises.
  eapply raises_only_caught with (Q := isE); [mraises | auto | mraises].
Qed.

Hint Resolve raises_get_model_path : mraises.

Lemma raises_load_upsampler : raises_only isE (_load_upsampler env).
Proof.
  unfold _load_upsampler. mraises.
  eapply raises_only_caught with (Q := isE); [| auto | mraises].
  mraises.
  apply raises_only_raise. eapply ni_load_weights; eauto.
Qed.

Hint Resolve raises_load_upsampler : mraises.

Hint Extern 1 (raises_only _ (pure_call (imdecode _ _))) =>
  apply raises_only_pure_call; apply (ni_imdecode env calm) : mraises.
Hint Extern 1 (raises_only _ (pure_call (enhanced _))) =>
  apply raises_only_pure_call; apply (ni_enhance env calm) : mraises.
Hint Extern 1 (raises_only _ (pure_call (imencode _ _ _))) =>
  apply raises_only_pure_call; apply (ni_imencode env calm) : mraises.

Lemma raises_upscale_try ip op q : raises_only isE (upscale_try env ip op q).
Proof.
  unfold upscale_try, upsampler_enhance, empty_cache_if_cuda,
    clear_upsampler_tensors.
  mraises.
Qed.

(** What follows the existence test raises nothing when nothing
    interrupts. *)
Lemma upscale_rest_never_raises ip op q present :
  raises_only (fun _ => False)
    (if negb present then
       log_error ("Input image not found: " +:+ PathLib.str ip) >> ret false
     else
       try_except (upscale_try env ip op q) is_Exception
         (fun e => log_error ("Upscaling failed: " +:+ exc_msg e) >> ret false)).
Proof.
  mraises.
  eapply raises_only_caught with (Q := isE);
    [apply raises_upscale_try | auto | mraises].
Qed.

End Calm.

(** What follows the existence test raises nothing that
    [except Exception] catches. *)
Lemma upscale_rest_raises env ip op q present :
  raises_only (fun e => is_Exception e = false)
    (if negb present then
       log_error ("Input image not found: " +:+ PathLib.str ip) >> ret false
     else
       try_except (upscale_try env ip op q) is_Exception
         (fun e => log_error ("Upscaling failed: " +:+ exc_msg e) >> ret false)).
Proof. mraises. apply raises_only_uncaught. mraises. Qed.

(** The world when [upscale] tests the input, and the test itself. *)
Lemma upscale_unfold env ip op q self w :
  upscale env ip op q (self, w)
  = (let* success :=
       (let* present := liftW (FS.exists_ ip) in
        if negb present then
          log_error ("Input image not found: " +:+ PathLib.str ip) >> ret false
        else
          try_except (upscale_try env ip op q) is_Exception
            (fun e => log_error ("Upscaling failed: " +:+ exc_msg e)
                      >> ret false)) in
     liftW (emit (EvUpscaleReturn success)) >> ret success)
      (self, snoc w (EvUpscaleCall (PathLib.str ip) (PathLib.str op))).
Proof. reflexivity. Qed.

(** An exception leaves [upscale] only when it is outside [Exception],
    or when the input cannot be examined. *)
Lemma upscale_raises env ip op q self w e :
  fst (upscale env ip op q (self, w)) = Raise e ->
  is_Exception e = false \/ FS.denied w ip = true.
Proof.
  rewrite upscale_unfold.
  set (w0 := snoc w _).
  destruct (FS.denied w ip) eqn:Hd; [auto |].
  assert (Hd0 : FS.denied w0 ip = false) by exact Hd.
  intros H. left. revert H. unfold bind at 1. unfold bind at 1.
  rewrite liftW_run, (exists_ok _ _ Hd0). simpl.
  match goal with |- context [(if negb ?b then ?x else ?y) ?s] =>
    pose proof (upscale_rest_raises env ip op q b s) as Hrest;
    destruct ((if negb b then x else y) s) as [[r|e'] s1]
  end.
  - unfold bind. simpl. discriminate.
  - intros H. injection H as <-. apply Hrest. reflexivity.
Qed.

(** [upscale] returns when nothing interrupts and the input can be
    examined. *)
Lemma upscale_total env (calm : NoInterrupt env) ip op q self w :
  FS.denied w ip = false ->
  exists b, fst (upscale env ip op q (self, w)) = Ret b.
Proof.
  intros Hd. rewrite upscale_unfold.
  set (w0 := snoc w _).
  assert (Hd0 : FS.denied w0 ip = false) by exact Hd.
  unfold bind at 1. unfold bind at 1.
  rewrite liftW_run, (exists_ok _ _ Hd0). simpl.
  match goal with |- context [(if negb ?b then ?x else ?y) ?s] =>
    pose proof (upscale_rest_never_raises env calm ip op q b s) as Hrest;
    destruct ((if negb b then x else y) s) as [[r|e'] s1]
  end.
  - exists r. reflexivity.
  - destruct (Hrest e' eq_refl).
Qed.

(** ** The file system along a call *)

Lemma store_file_Ret p c w w' :
  FS.store_file p c w = (Ret tt, w') ->
  fs w' = <[PathLib.str p := File c]> (fs w) /\ trace w' = trace w.
Proof.
  unfold FS.store_file, bind, get, set_node, modify, raise. cbn.
  destruct (FS.denied w p); [discriminate |].
  destruct (FS.is_dir w p); [discriminate |].
  destruct (FS.is_dir w (PathLib.parent p)); [| discriminate].
  intros H. injection H as <-. simpl. auto.
Qed.

Lemma write_file_Ret p c w w' :
  FS.write_file p c w = (Ret tt, w') ->
  fs w' = <[PathLib.str p := File c]> (fs w).
Proof.
  unfold FS.write_file. rewrite (bind_Ret_intro _ _ _ _ _ (emit_run _ _)).
  intros H. apply store_file_Ret in H as [H _]. exact H.
Qed.

Lemma read_file_Ret p w c w' :
  FS.read_file p w = (Ret c, w') ->
  fs w !! PathLib.str p = Some (File c) /\ fs w' = fs w.
Proof.
  unfold FS.read_file. rewrite (bind_Ret_intro _ _ _ _ _ (emit_run _ _)).
  unfold bind, get, ret, raise. cbn.
  destruct (fs w !! PathLib.str p) as [[c'| |]|]; try discriminate.
  - intros H. injection H as <- <-. auto.
  - destruct (parts p); discriminate.
Qed.

Lemma present_false w p : FS.present w p = false -> fs w !! PathLib.str p = None.
Proof.
  unfold FS.present. destruct (parts p); [discriminate |].
  intros H. apply bool_decide_eq_false in H.
  destruct (fs w !! PathLib.str p); [exfalso; apply H; eauto | reflexivity].
Qed.

Lemma present_true_insert p n w w' :
  fs w' = <[PathLib.str p := n]> (fs w) -> FS.present w' p = true.
Proof.
  intros Hfs. unfold FS.present. destruct (parts p); [reflexivity |].
  rewrite Hfs, lookup_insert_eq. apply bool_decide_eq_true. eauto.
Qed.

(** ** A successful resolution of the weights *)

Lemma get_model_path_Ret env self w p st' :
  _get_model_path env (self, w) = (Ret p, st') ->
  p = weights_path self /\ fst st' = self /\ FS.denied w p = false /\
  ((FS.present w p = true /\ fs (snd st') = fs w) \/
   (FS.present w p = false /\
    exists body, urlretrieve env (url (model_config self)) = FetchOk body
                 /\ fs (snd st') = <[PathLib.str p := File body]> (fs w))).
Proof.
  unfold _get_model_path. intros H.
  apply bind_Ret_inv in H as (s0 & st1 & H0 & H).
  unfold get_self in H0. injection H0 as <- <-. simpl in H.
  apply bind_Ret_inv in H as (present & st2 & Hex & H).
  apply bind_Ret_inv in H as (u & st3 & Hfetch & H).
  unfold ret in H. injection H as Hp Hst. subst p st3.
  apply liftW_Ret in Hex as (w1 & Hex & ->).
  apply exists_Ret in Hex as (Hd & -> & ->).
  split; [reflexivity |].
  destruct (FS.present w (weights_path self)) eqn:Hpres; simpl in Hfetch.
  - unfold ret in Hfetch. simplify_eq. simpl.
    split; [reflexivity |]. split; [exact Hd |]. left. split; reflexivity.
  - apply try_except_Ret_inv in Hfetch as [Hb | (e & s1 & _ & _ & Hh)];
      [| discriminate Hh].
    rewrite liftW_run in Hb. injection Hb as Hr <-. simpl.
    split; [reflexivity |]. split; [exact Hd |]. right. split; [reflexivity |].
    unfold urlretrieve_to in *.
    rewrite (bind_Ret_intro _ _ _ _ _ (emit_run _ _)) in Hr |- *.
    destruct (urlretrieve env (url (model_config self))) as [body | e partial].
    + exists body. split; [reflexivity |].
      destruct (FS.store_file (weights_path self) body _) as [[[]|e] w3] eqn:Hst;
        [| discriminate Hr].
      apply store_file_Ret in Hst as [Hfs _]. exact Hfs.
    + exfalso. revert Hr. unfold bind.
      destruct partial; simpl.
      * match goal with |- context [try_except ?a ?b ?c ?d] =>
          destruct (try_except a b c d) as [[[]|e'] w3] end; discriminate.
      * discriminate.
Qed.

(** ** A successful load of the backend *)

Lemma load_upsampler_Ret env self w st' :
  _load_upsampler env (self, w) = (Ret tt, st') ->
  match upsampler self with
  | Some _ => st' = (self, w)
  | None =>
      exists u weights,
        fst st' = with_upsampler self (Some u) /\
        r_img u = None /\ r_output u = None /\
        load_weights env weights (scale (model_config self))
          (num_block (model_config self)) = None /\
        fs (snd st') !! PathLib.str (weights_path self) = Some (File weights) /\
        ((fs w !! PathLib.str (weights_path self) = Some (File weights)
          /\ fs (snd st') = fs w) \/
         (fs w !! PathLib.str (weights_path self) = None /\
          urlretrieve env (url (model_config self)) = FetchOk weights /\
          fs (snd st') = <[PathLib.str (weights_path self) := File weights]> (fs w)))
  end.
Proof.
  unfold _load_upsampler. intros H.
  apply bind_Ret_inv in H as (s0 & st1 & H0 & H).
  unfold get_self in H0. injection H0 as <- <-. simpl in H.
  destruct (upsampler self) as [u0|] eqn:Hu.
  - unfold ret in H. injection H as <-. reflexivity.
  - apply try_except_Ret_inv in H as [Hb | (e & s1 & _ & _ & Hh)];
      [| discriminate Hh].
    apply bind_Ret_inv in Hb as (p & [self1 w1] & Hp & Hb).
    apply get_model_path_Ret in Hp as (-> & Hself & _ & Hfs).
    simpl in Hself, Hfs. subst self1.
    apply bind_Ret_inv in Hb as (weights & st3 & Hread & Hb).
    apply liftW_Ret in Hread as (w3 & Hrd & ->).
    apply read_file_Ret in Hrd as [Hlook Hfs3]. simpl in Hb.
    destruct (load_weights env weights _ _) eqn:Hl; [discriminate Hb |].
    unfold set_upsampler, modify in Hb. injection Hb as <-. simpl.
    eexists _, weights. split; [reflexivity |].
    split; [reflexivity |]. split; [reflexivity |]. split; [exact Hl |].
    rewrite Hfs3. split; [exact Hlook |].
    destruct Hfs as [[Hpres Hsame] | (Hpres & body & Hfetch & Hins)].
    + left. rewrite <- Hsame. auto.
    + right. apply present_false in Hpres.
      rewrite Hins, lookup_insert_eq in Hlook. injection Hlook as ->.
      auto.
Qed.

Lemma load_upsampler_keeps env self w1 self2 w2 k n :
  _load_upsampler env (self, w1) = (Ret tt, (self2, w2)) ->
  fs w1 !! k = Some n -> fs w2 !! k = Some n.
Proof.
  intros H Hk. apply load_upsampler_Ret in H.
  destruct (upsampler self).
  - injection H as _ <-. exact Hk.
  - destruct H as (u & weights & _ & _ & _ & _ & _ & [[_ Hfs] | (Hnone & _ & Hfs)]);
      simpl in Hfs; rewrite Hfs; [exact Hk |].
    rewrite lookup_insert_ne; [exact Hk | congruence].
Qed.

Lemma empty_cache_fs env self w u st' :
  empty_cache_if_cuda env (self, w) = (Ret u, st') ->
  fst st' = self /\ fs (snd st') = fs w.
Proof.
  unfold empty_cache_if_cuda. destruct (cuda_available env).
  - intros H. apply liftW_Ret in H as (w' & He & ->).
    rewrite emit_run in He. simplify_eq. split; reflexivity.
  - unfold ret. intros H. simplify_eq. split; reflexivity.
Qed.

(** ** A successful call of [upscale] *)

Lemma upscale_try_true env ip op q self w st' :
  upscale_try env ip op q (self, w) = (Ret true, st') ->
  exists w1 self2 w2 u c img out buf,
    FS.mkdir_p (PathLib.parent op) w = (Ret tt, w1) /\
    _load_upsampler env (self, w1) = (Ret tt, (self2, w2)) /\
    upsampler self2 = Some u /\
    fs w2 !! PathLib.str ip = Some (File c) /\
    imdecode env c = Ret (Some img) /\
    enhanced (enhance env u img q) = Ret out /\
    imencode env (PathLib.suffix op) out = Ret (true, buf) /\
    fs (snd st') = <[PathLib.str op := File buf]> (fs w2) /\
    held_tensors (fst st') = [].
Proof.
  unfold upscale_try. intros H.
  apply bind_Ret_inv in H as ([] & st1 & H1 & H).
  apply liftW_Ret in H1 as (w1 & Hmk & ->).
  apply bind_Ret_inv in H as ([] & [self2 w2] & H2 & H).
  apply bind_Ret_inv in H as (c & st3 & H3 & H).
  apply liftW_Ret in H3 as (w3 & Hrd & ->).
  apply read_file_Ret in Hrd as [Hc Hfs3].
  apply bind_Ret_inv in H as (decoded & st4 & H4 & H).
  rewrite pure_call_run in H4. injection H4 as Hdec <-.
  destruct decoded as [img|].
  2:{ apply bind_Ret_inv in H as (? & ? & _ & H). discriminate H. }
  apply bind_Ret_inv in H as (out & st5 & H5 & H).
  unfold upsampler_enhance in H5.
  apply bind_Ret_inv in H5 as (s0 & st0 & H0 & H5).
  unfold get_self in H0. injection H0 as <- <-. simpl in H5.
  destruct (upsampler self2) as [u|] eqn:Hu; [| discriminate H5].
  apply bind_Ret_inv in H5 as ([] & st5' & Hset & H5).
  unfold set_upsampler, modify in Hset. injection Hset as <-. simpl in H5.
  rewrite pure_call_run in H5. injection H5 as Henh <-.
  apply bind_Ret_inv in H as ([] & [self6 w6] & H6 & H).
  apply empty_cache_fs in H6 as [Hs6 Hfs6]. simpl in Hs6, Hfs6. subst self6.
  apply bind_Ret_inv in H as ([] & st7 & H7 & H).
  unfold clear_upsampler_tensors in H7.
  apply bind_Ret_inv in H7 as (s0 & st0 & H0 & H7).
  unfold get_self in H0. injection H0 as <- <-. simpl in H7.
  unfold set_upsampler, modify in H7. injection H7 as <-. simpl in H.
  apply bind_Ret_inv in H as ([ok buf] & st8 & H8 & H).
  rewrite pure_call_run in H8. injection H8 as Henc <-. simpl in H.
  destruct ok.
  2:{ apply bind_Ret_inv in H as (? & ? & _ & H).
      apply bind_Ret_inv in H as (? & ? & _ & H). discriminate H. }
  apply bind_Ret_inv in H as ([] & st9 & H9 & H).
  apply liftW_Ret in H9 as (w9 & Hwr & ->).
  apply write_file_Ret in Hwr.
  apply bind_Ret_inv in H as ([] & st10 & H10 & H).
  apply liftW_Ret in H10 as (w10 & Hgc & ->).
  rewrite emit_run in Hgc. injection Hgc as <-.
  unfold ret in H. injection H as <-. simpl.
  exists w1, self2, w2, u, c, img, out, buf.
  repeat split; try assumption.
  rewrite Hwr, Hfs6, Hfs3. reflexivity.
Qed.

Lemma upscale_Ret env ip op q self w b st' :
  upscale env ip op q (self, w) = (Ret b, st') ->
  exists st2,
    upscale_body env ip op q
      (self, snoc w (EvUpscaleCall (PathLib.str ip) (PathLib.str op)))
      = (Ret b, st2) /\
    st' = (fst st2, snoc (snd st2) (EvUpscaleReturn b)).
Proof.
  unfold upscale. intros H.
  apply bind_Ret_inv in H as ([] & st1 & H1 & H).
  apply liftW_Ret in H1 as (w1 & He & ->). rewrite emit_run in He.
  injection He as <-.
  apply bind_Ret_inv in H as (b' & [self2 w2] & Hb & H).
  apply bind_Ret_inv in H as ([] & st3 & H3 & H).
  apply liftW_Ret in H3 as (w3 & He & ->). rewrite emit_run in He.
  injection He as <-. unfold ret in H. injection H as -> <-.
  eexists. split; [exact Hb | reflexivity].
Qed.

Lemma upscale_body_true env ip op q self w st' :
  upscale_body env ip op q (self, w) = (Ret true, st') ->
  FS.present w ip = true /\
  upscale_try env ip op q (self, snoc w (EvStat (PathLib.str ip)))
    = (Ret true, st').
Proof.
  unfold upscale_body. intros H.
  apply bind_Ret_inv in H as (present & st1 & H1 & H).
  apply liftW_Ret in H1 as (w1 & He & ->).
  apply exists_Ret in He as (_ & -> & ->).
  destruct (FS.present w ip); simpl in H.
  - split; [reflexivity |].
    apply try_except_Ret_inv in H as [Hb | (e & s1 & _ & _ & Hh)]; [exact Hb |].
    apply bind_Ret_inv in Hh as (? & ? & _ & Hh). discriminate Hh.
  - apply bind_Ret_inv in H as (? & ? & _ & H). discriminate H.
Qed.

Lemma upscale_true env ip op q self w st' :
  upscale env ip op q (self, w) = (Ret true, st') ->
  FS.present w ip = true /\
  exists w1 self2 w2 u c img out buf,
    FS.mkdir_p (PathLib.parent op) (entered w ip op) = (Ret tt, w1) /\
    _load_upsampler env (self, w1) = (Ret tt, (self2, w2)) /\
    upsampler self2 = Some u /\
    fs w2 !! PathLib.str ip = Some (File c) /\
    imdecode env c = Ret (Some img) /\
    enhanced (enhance env u img q) = Ret out /\
    imencode env (PathLib.suffix op) out = Ret (true, buf) /\
    fs (snd st') = <[PathLib.str op := File buf]> (fs w2) /\
    held_tensors (fst st') = [].
Proof.
  intros H. apply upscale_Ret in H as (st2 & Hb & ->).
  apply upscale_body_true in Hb as [Hp Ht]. split; [exact Hp |].
  apply upscale_try_true in Ht. exact Ht.
Qed.

(** In none of the failure modes does [upscale] return [True]. *)
Lemma failure_not_true env self w ip op q st' :
  failure_mode env self w ip op q ->
  upscale env ip op q (self, w) <> (Ret true, st').
Proof.
  intros Hf H.
  apply upscale_true in H
    as (Hp & w1 & self2 & w2 & u & c & img & out & buf
        & Hmk & Hload & Hu & Hc & Hdec & Henh & Henc & _).
  assert (Hdirs : only_dirs (entered w ip op) w1).
  { pose proof (only_dirs_mkdir_p (PathLib.parent op) (entered w ip op)) as Hd.
    rewrite Hmk in Hd. exact Hd. }
  assert (Hkeep : forall c0, fs w !! PathLib.str ip = Some (File c0) -> c0 = c).
  { intros c0 H0.
    apply (only_dirs_file _ _ _ _ Hdirs) in H0.
    apply (load_upsampler_keeps _ _ _ _ _ _ _ Hload) in H0. congruence. }
  destruct Hf as [Hmiss | e partial Hnone Habs Hfetch | Hnone Hbad
                  | c0 H0 Hbad | c0 img0 H0 Hd0 Hbad | Hbad].
  - congruence.
  - apply load_upsampler_Ret in Hload. rewrite Hnone in Hload.
    destruct Hload as (u' & weights & _ & _ & _ & _ & _
                       & [[Hin _] | (_ & Hok & _)]); [| congruence].
    apply (only_dirs_file_back _ _ _ _ Hdirs) in Hin.
    simpl in Hin. congruence.
  - apply load_upsampler_Ret in Hload. rewrite Hnone in Hload.
    destruct Hload as (u' & weights & _ & _ & _ & Hl & _). exact (Hbad _ Hl).
  - apply Hkeep in H0 as ->. exact (Hbad _ Hdec).
  - apply Hkeep in H0 as ->. rewrite Hdec in Hd0. injection Hd0 as ->.
    exact (Hbad _ _ Henh).
  - exact (Hbad _ _ Henc).
Qed.

(** ** Reading a trace *)




Lemma cleanup_calls_app a b :
  cleanup_calls (a ++ b) = (cleanup_calls a + cleanup_calls b)%nat.
Proof. unfold cleanup_calls. rewrite List.filter_app. apply List.length_app. Qed.

Lemma inner_silent t :
  forallb is_inner t = true ->
  upscale_calls t = [] /\ upscale_returns t = [] /\ signals_of t = []
  /\ cleanup_calls t = 0%nat.
Proof.
  induction t as [| e t IH]; simpl; [auto |].
  intros H. apply andb_true_iff in H as [He Ht].
  destruct (IH Ht) as (C & R & S & K).
  unfold cleanup_calls in *. simpl.
  destruct e; simpl in *; try discriminate; auto.
Qed.

Lemma not_cleanup_inner e : is_inner e = true -> not_cleanup e = true.
Proof. destruct e; simpl; auto. Qed.

Lemma not_cleanup_calls t : forallb not_cleanup t = true -> cleanup_calls t = 0%nat.
Proof.
  unfold cleanup_calls. induction t as [| e t IH]; simpl; [reflexivity |].
  intros H. apply andb_true_iff in H as [He Ht].
  destruct e; simpl in *; auto; discriminate.
Qed.



(** ** [cleanup] *)

Lemma cleanup_run env st :
  exists w' t,
    cleanup env st = (Ret tt, (with_upsampler (fst st) None, w')) /\
    trace w' = trace (snd st) ++ EvCleanupCall :: t /\
    forallb is_inner t = true /\ fs w' = fs (snd st).
Proof.
  destruct st as [self w]. unfold cleanup, bind, empty_cache_if_cuda. simpl.
  destruct (upsampler self) eqn:Hu; simpl.
  - destruct (cuda_available env); simpl.
    + eexists _, [EvEmptyCache]. split; [reflexivity |]. simpl.
      rewrite <- app_assoc. repeat split; reflexivity.
    + eexists _, []. split; [reflexivity |]. repeat split; reflexivity.
  - exists (snoc w EvCleanupCall), []. split; [| repeat split; reflexivity].
    unfold ret. f_equal. f_equal. destruct self; simpl in *. subst. reflexivity.
Qed.

(** The command line invokes [cleanup] exactly once on a constructed
    session, however the call to [upscale] ends. *)
Lemma cli_cleanup_exactly_once env ip op upscaler w :
  exists t,
    trace (snd (with_object upscaler (upscale_command_try env ip op) w))
      = trace w ++ t
    /\ cleanup_calls t = 1%nat.
Proof.
  unfold with_object, upscale_command_try, try_finally.
  match goal with |- context [try_except ?b ?c ?h] =>
    set (body := try_except b c h) end.
  assert (Hbody : steps (on_world (grows not_cleanup)) body).
  { pose proof (grows_upscale_body not_cleanup env ip op 4 not_cleanup_inner).
    unfold body, upscale, print. msteps. }
  specialize (Hbody (upscaler, w)).
  destruct (body (upscaler, w)) as [r st1].
  destruct Hbody as (t1 & Ht1 & Hn1). simpl in Ht1.
  destruct (cleanup_run env st1) as (w' & tc & Hrun & Htc & Hin & _).
  rewrite Hrun. simpl.
  exists (t1 ++ EvCleanupCall :: tc). split.
  - rewrite Htc, Ht1. symmetry. apply app_assoc.
  - rewrite cleanup_calls_app, (not_cleanup_calls _ Hn1).
    change (EvCleanupCall :: tc) with ([EvCleanupCall] ++ tc).
    rewrite cleanup_calls_app.
    destruct (inner_silent tc Hin) as (_ & _ & _ & ->). reflexivity.
Qed.

(** ** One call, and the loop, seen from the trace *)

Section CalmCalls.

Variable env : Env.
Hypothesis calm : NoInterrupt env.



End CalmCalls.

(** ** Strings and paths *)





















(** ** The scenarios are calm *)

Lemma demo_calm fetch load enh enc :
  (forall u e p, fetch u = FetchFail e p -> is_Exception e = true) ->
  (forall c sc nb e, load c sc nb = Some e -> is_Exception e = true) ->
  (forall u i q e, enhanced (enh u i q) = Raise e -> is_Exception e = true) ->
  (forall x i e, enc x i = Raise e -> is_Exception e = true) ->
  NoInterrupt (Demo.env_with fetch load enh enc).
Proof.
  intros Hf Hl He Hc. split; simpl; auto.
  intros c e. destruct (String.eqb c "garbage"); discriminate.
Qed.


Lemma dict_get_absent {V} (d : list (string * V)) k :
  ~ In k (dict_keys d) -> dict_get d k = None.
Proof.
  induction d as [| [k' v] d IH]; simpl; [reflexivity |].
  intros H. destruct (String.eqb_spec k k') as [-> | Hne].
  - exfalso. apply H. left. reflexivity.
  - apply IH. intros Hin. apply H. right. exact Hin.
Qed.

Lemma same_config_session_steps env st st' :
  session_steps env st st' -> same_config st st'.
Proof.
  induction 1 as [st | st1 st2 st3 Hstep _ IH]; [reflexivity |].
  etransitivity; [| exact IH].
  destruct Hstep.
  - apply same_config_upscale.
  - apply same_config_cleanup.
Qed.

Lemma init_Ret env name dev dt t t_pad p_pad w self w1 :
  init env name dev dt t t_pad p_pad w = (Ret self, w1) ->
  upsampler self = None /\ with_upsampler self None = self
  /\ keeps_denied w w1.
Proof.
  unfold init. destruct (dict_get MODEL_CONFIGS name) as [cfg|]; [| discriminate].
  intros H. apply bind_Ret_inv in H as ([] & w2 & Hmk & H).
  unfold ret in H. injection H as <- <-. simpl.
  split; [reflexivity |]. split; [reflexivity |].
  pose proof (keeps_denied_mkdir_p
                (PathLib.joinpath (project_root env) "models") w) as Hk.
  rewrite Hmk in Hk. exact Hk.
Qed.

(** A call that returns [True] leaves no tensor on the backend. *)
Lemma upscale_true_releases env ip op q self w st' :
  upscale env ip op q (self, w) = (Ret true, st') ->
  held_tensors (fst st') = [].
Proof.
  intros H. apply upscale_true in H.
  destruct H as (_ & ? & ? & ? & ? & ? & ? & ? & ? & H). apply H.
Qed.

(** ** When the backend's tensors are released *)

Global Instance tensor_free_preorder : PreOrder tensor_free.
Proof.
  split.
  - intros st H. exact H.
  - intros s1 s2 s3 H12 H23 H. apply H23, H12, H.
Qed.

Lemma tensor_free_liftW {A} (m : M World A) : steps tensor_free (liftW m).
Proof. intros st H. exact H. Qed.

Lemma tensor_free_get_self : steps tensor_free get_self.
Proof. intros st H. exact H. Qed.

Lemma tensor_free_set_upsampler u :
  r_img u = None -> r_output u = None ->
  steps tensor_free (set_upsampler (Some u)).
Proof.
  intros Hi Ho st _. unfold held_tensors. simpl. rewrite Hi, Ho. reflexivity.
Qed.

Global Hint Resolve tensor_free_liftW tensor_free_get_self : msteps.

Global Hint Extern 1 (steps tensor_free (set_upsampler (Some _))) =>
  apply tensor_free_set_upsampler; reflexivity : msteps.

Lemma tensor_free_load_upsampler env : steps tensor_free (_load_upsampler env).
Proof. unfold _load_upsampler, _get_model_path. msteps. Qed.

(** After a forward pass that returns, the tensors are deleted before
    anything else can go wrong. *)
Lemma tensor_free_enhance env img q {A} (k : ndarray -> M Obj A) :
  (forall u, exists out, enhanced (enhance env u img q) = Ret out) ->
  (forall out, steps tensor_free (k out)) ->
  steps tensor_free
    (let* output := upsampler_enhance env img q in
     empty_cache_if_cuda env >> clear_upsampler_tensors >> k output).
Proof.
  intros Hok Hk [self w] Hfree.
  unfold upsampler_enhance, bind at 1. unfold bind at 1. simpl.
  destruct (upsampler self) as [u|] eqn:Hu; [| exact Hfree].
  simpl. destruct (Hok u) as [out Hout]. rewrite Hout.
  unfold bind at 1.
  assert (Hcache : forall st, exists w',
            empty_cache_if_cuda env st = (Ret tt, (fst st, w'))).
  { intros [s0 w0]. unfold empty_cache_if_cuda.
    destruct (cuda_available env); eexists; reflexivity. }
  match goal with |- context [empty_cache_if_cuda env ?st] =>
    destruct (Hcache st) as [w1 ->] end.
  simpl. unfold bind at 1, clear_upsampler_tensors, bind at 1. simpl.
  apply Hk. unfold held_tensors. reflexivity.
Qed.

Lemma tensor_free_upscale_try env ip op q :
  (forall u img, exists out, enhanced (enhance env u img q) = Ret out) ->
  steps tensor_free (upscale_try env ip op q).
Proof.
  intros Hok.
  pose proof (tensor_free_load_upsampler env).
  unfold upscale_try, log_error.
  apply steps_bind; [typeclasses eauto | msteps |]. intros _.
  apply steps_bind; [typeclasses eauto | msteps |]. intros _.
  apply steps_bind; [typeclasses eauto | msteps |]. intros img_buffer.
  apply steps_bind; [typeclasses eauto | msteps |]. intros [img |]; [| msteps].
  apply tensor_free_enhance; [intros u; apply Hok |]. msteps.
Qed.

Lemma tensor_free_upscale env ip op q :
  (forall u img, exists out, enhanced (enhance env u img q) = Ret out) ->
  steps tensor_free (upscale env ip op q).
Proof.
  intros Hok.
  pose proof (tensor_free_upscale_try env ip op q Hok).
  unfold upscale, upscale_body, log_error. msteps.
Qed.

(** Whatever the outcome of a call, a session that held no tensor holds
    none afterwards, as long as the forward pass itself returns. *)
Lemma upscale_releases_when_enhance_returns env ip op q self w :
  (forall u img, exists out, enhanced (enhance env u img q) = Ret out) ->
  held_tensors self = [] ->
  held_tensors (fst (snd (upscale env ip op q (self, w)))) = [].
Proof. intros Hok Hfree. exact (tensor_free_upscale env ip op q Hok (self, w) Hfree). Qed.

(** * The claims *)

(** C1, at the failing input: the forward pass raises after the backend
    stored the input tensor; [upscale] logs, returns [False], and the
    session still holds the tensor.  The same call with a working
    backend returns [True] and holds nothing; a forward pass that raises
    is the only way to keep a tensor
    ([upscale_releases_when_enhance_returns]). *)
Theorem upscale_keeps_tensors_when_enhance_raises :
  let failed := upscale Demo.env_oom Demo.in1 Demo.out1 4
                  (Demo.session, Demo.w_one) in
  let worked := upscale Demo.env Demo.in1 Demo.out1 4
                  (Demo.session, Demo.w_one) in
  fst failed = Ret false
  /\ held_tensors (fst (snd failed)) = [Demo.img "a"]
  /\ fst worked = Ret true
  /\ held_tensors (fst (snd worked)) = [].
Proof. vm_compute. repeat split. Qed.




(** C3, at the failing inputs.  (1) The second input cannot be
    examined: the exception leaves the first statement of [upscale],
    aborts the loop after one item, and [run] reports it and
    [finished(0, 3)] without invoking [cleanup] on the session whose
    backend the first item loaded.  (2) The output directory is taken
    by a regular file: the session is constructed, the directory is not
    created, and [cleanup] is not invoked.  (3) The forward pass is
    interrupted: the exception leaves [run], [cleanup] not invoked.  On
    the same interruption the command line invokes [cleanup] once. *)
Theorem batch_skips_cleanup_on_exception :
  let locked := run Demo.env (Demo.batch Demo.inputs_locked) Demo.w_locked in
  let blocked := run Demo.env (Demo.batch Demo.inputs) Demo.w_out_taken in
  let interrupted := run Demo.env_interrupted (Demo.batch Demo.inputs)
                       Demo.w_third_bad in
  let cli := upscale_command Demo.env_interrupted Demo.args Demo.w_one in
  (fst locked = Ret tt
   /\ upscale_returns (trace (snd locked)) = [true]
   /\ map fst (upscale_calls (trace (snd locked)))
      = ["/in/1.png"; "/locked/2.png"]
   /\ List.last (signals_of (trace (snd locked))) (SigError EmptyString) = SigFinished 0 3
   /\ cleanup_calls (trace (snd locked)) = 0%nat)
  /\ (fst blocked = Ret tt
      /\ signals_of (trace (snd blocked))
         = [SigProgress 0 "Initializing RealESRGAN_x4plus...";
            SigError "Batch processing error: [Errno 17] File exists: '/out'";
            SigFinished 0 5]
      /\ cleanup_calls (trace (snd blocked)) = 0%nat)
  /\ (fst interrupted = Raise (Exc KeyboardInterrupt EmptyString)
      /\ cleanup_calls (trace (snd interrupted)) = 0%nat)
  /\ (fst cli = Ret 1%Z /\ cleanup_calls (trace (snd cli)) = 1%nat).
Proof. vm_compute. repeat split. Qed.

(** C5 (amended).  [cleanup] returns normally and puts the session back
    in the state it had when it was constructed, with no backend: a
    later [upscale] call loads the backend again, as the first call on a
    new session does. *)
Theorem cleanup_returns_to_fresh env name dev dt t t_pad p_pad w0 self w1 st :
  init env name dev dt t t_pad p_pad w0 = (Ret self, w1) ->
  session_steps env (self, w1) st ->
  exists w',
    cleanup env st = (Ret tt, (self, w')) /\ fs w' = fs (snd st)
    /\ upsampler self = None /\ held_tensors self = [].
Proof.
  intros Hinit Hsteps.
  destruct (init_Ret _ _ _ _ _ _ _ _ _ _ Hinit) as (Hnone & Hfresh & _).
  apply same_config_session_steps in Hsteps. unfold same_config in Hsteps.
  simpl in Hsteps. rewrite Hfresh in Hsteps.
  destruct (cleanup_run env st) as (w' & tc & Hrun & _ & _ & Hfs).
  exists w'. rewrite Hrun, <- Hsteps.
  repeat split; [exact Hfs | exact Hnone |].
  unfold held_tensors. rewrite Hnone. reflexivity.
Qed.

Lemma cleanup_returns_to_fresh_witness :
  init_default Demo.env "RealESRGAN_x4plus" Demo.w_one
    = (Ret Demo.session, snoc Demo.w_one (EvMkdir "/app/models"))
  /\ session_steps Demo.env
       (Demo.session, snoc Demo.w_one (EvMkdir "/app/models"))
       (snd (upscale Demo.env Demo.in1 Demo.out1 4
               (Demo.session, snoc Demo.w_one (EvMkdir "/app/models"))))
  /\ exists w',
       cleanup Demo.env
         (snd (upscale Demo.env Demo.in1 Demo.out1 4
                 (Demo.session, snoc Demo.w_one (EvMkdir "/app/models"))))
       = (Ret tt, (Demo.session, w')).
Proof.
  assert (H1 : init_default Demo.env "RealESRGAN_x4plus" Demo.w_one
               = (Ret Demo.session, snoc Demo.w_one (EvMkdir "/app/models")))
    by (vm_compute; reflexivity).
  assert (H2 : session_steps Demo.env
                 (Demo.session, snoc Demo.w_one (EvMkdir "/app/models"))
                 (snd (upscale Demo.env Demo.in1 Demo.out1 4
                         (Demo.session, snoc Demo.w_one (EvMkdir "/app/models")))))
    by (eapply steps_cons; [apply step_upscale | apply steps_nil]).
  split; [exact H1 |]. split; [exact H2 |].
  destruct (cleanup_returns_to_fresh _ _ _ _ _ _ _ _ _ _ _ H1 H2)
    as (w' & Hrun & _).
  exists w'. exact Hrun.
Defined.

(** C5, as stated, fails: on a session that has run once and was then
    cleaned up, the next [upscale] call returns [True]. *)
Lemma run_after_cleanup_succeeds :
  ~ (forall env ip op q st,
       fst (upscale env ip op q (snd (cleanup env st))) <> Ret true).
Proof.
  intros H.
  apply (H Demo.env Demo.in1 Demo.out1 4%Q Demo.after_call).
  vm_compute. reflexivity.
Qed.

(** C6. While the processor's worker is running, a request for a
    single image or for a batch is turned down at once: it emits the
    error "Another operation is already running", builds and starts no
    worker, keeps none for later, and leaves the running worker as it
    is. *)
Theorem busy_request_rejected (p : ImageProcessor) input_path output_path inputs :
  is_busy p = true ->
  let p1 := upscale_single p input_path output_path in
  let p2 := upscale_batch p inputs in
  (worker p1 = worker p
   /\ emitted p1 = emitted p ++ [SigError "Another operation is already running"]
   /\ settings p1 = settings p)
  /\ (worker p2 = worker p
      /\ emitted p2 = emitted p ++ [SigError "Another operation is already running"]
      /\ settings p2 = settings p)
  /\ worker (worker_finished p1) = worker (worker_finished p)
  /\ worker (worker_finished p2) = worker (worker_finished p).
Proof.
  unfold is_busy, upscale_single, upscale_batch, worker_running.
  intros H. rewrite H. simpl. repeat split.
Qed.

Lemma busy_request_rejected_witness :
  let p := {| settings := {| s_model := "RealESRGAN_x4plus";
                             s_output_dir := "/out"; s_tile := 400;
                             s_tile_pad := 10; s_pre_pad := 0;
                             s_outscale := 4 |};
              worker := None; emitted := [] |} in
  let running := upscale_single p "/in/1.png" "/out/1.png" in
  is_busy running = true
  /\ worker (upscale_batch running Demo.inputs) = worker running
  /\ emitted (upscale_batch running Demo.inputs)
     = [SigError "Another operation is already running"].
Proof.
  intros p running.
  assert (H : is_busy running = true) by reflexivity.
  split; [exact H |].
  destruct (busy_request_rejected running "/in/2.png" "/out/2.png"
              Demo.inputs H) as (_ & (Hw & He & _) & _).
  split; [exact Hw | exact He].
Defined.

(** C7. For a model identifier that is not in the catalog, constructing
    the session (where the identifier is resolved) raises
    [ValueError("Unknown model: ...")] and leaves the world as it was:
    no file is touched, nothing is fetched, the trace is unchanged. *)
Theorem unknown_model_rejected env name dev dt t t_pad p_pad w :
  ~ In name (dict_keys MODEL_CONFIGS) ->
  init env name dev dt t t_pad p_pad w = (Raise (unknown_model name), w)
  /\ exc_cls (unknown_model name) = ValueError
  /\ io_events (trace (snd (init env name dev dt t t_pad p_pad w)))
     = io_events (trace w).
Proof.
  intros H. unfold init. rewrite (dict_get_absent _ _ H).
  repeat split.
Qed.

Lemma unknown_model_rejected_witness :
  ~ In "not-a-real-model" (dict_keys MODEL_CONFIGS)
  /\ init Demo.env "not-a-real-model" None float16 400 10 0 Demo.w_one
     = (Raise (unknown_model "not-a-real-model"), Demo.w_one).
Proof.
  assert (H : ~ In "not-a-real-model" (dict_keys MODEL_CONFIGS)).
  { simpl. intros [H | [H | []]]; discriminate H. }
  split; [exact H |].
  apply (unknown_model_rejected Demo.env "not-a-real-model" None float16
           400 10 0 Demo.w_one H).
Defined.

(** C8. Resolving the weights a second time, after a first resolution
    that succeeded, returns the same path, decides on the existence of
    the cached file alone (one [stat]), fetches nothing and leaves the
    file system as it is. *)
Theorem weights_resolution_idempotent env self w p self' w' :
  _get_model_path env (self, w) = (Ret p, (self', w')) ->
  _get_model_path env (self', w')
    = (Ret p, (self', snoc w' (EvStat (PathLib.str p))))
  /\ network_events (trace (snoc w' (EvStat (PathLib.str p))))
     = network_events (trace w')
  /\ fs (snoc w' (EvStat (PathLib.str p))) = fs w'.
Proof.
  intros H. split; [| split; [| reflexivity]].
  - destruct (get_model_path_Ret _ _ _ _ _ H) as (-> & Hself & Hd & Hfs).
    simpl in Hself, Hfs. subst self'.
    assert (Hnow : FS.present w' (weights_path self) = true
                   /\ FS.denied w' (weights_path self) = false).
    { destruct Hfs as [[Hp Hsame] | (_ & body & _ & Hins)].
      - unfold FS.present, FS.denied in *. rewrite Hsame. auto.
      - split; [eapply present_true_insert; exact Hins |].
        unfold FS.denied. rewrite Hins, lookup_insert_eq. reflexivity. }
    destruct Hnow as [Hpres Hd'].
    unfold _get_model_path.
    rewrite (bind_Ret_intro get_self _ (self, w') self (self, w') eq_refl).
    rewrite (bind_Ret_intro _ _ _ true
               (self, snoc w' (EvStat (PathLib.str (weights_path self))))).
    + reflexivity.
    + rewrite liftW_run, (exists_ok _ _ Hd'). simpl. rewrite Hpres. reflexivity.
  - unfold network_events. simpl. rewrite List.filter_app. simpl.
    apply app_nil_r.
Qed.

Lemma weights_resolution_idempotent_witness :
  _get_model_path Demo.env (Demo.session, Demo.w_one)
    = (Ret (weights_path Demo.session), (Demo.session, Demo.w_cached))
  /\ network_events (trace Demo.w_cached)
     = [EvFetch (url (model_config Demo.session))
                "/app/models/RealESRGAN_x4plus.pth"]
  /\ _get_model_path Demo.env (Demo.session, Demo.w_cached)
     = (Ret (weights_path Demo.session),
        (Demo.session,
         snoc Demo.w_cached (EvStat (PathLib.str (weights_path Demo.session))))).
Proof.
  assert (H : _get_model_path Demo.env (Demo.session, Demo.w_one)
              = (Ret (weights_path Demo.session), (Demo.session, Demo.w_cached)))
    by (vm_compute; reflexivity).
  split; [exact H |]. split; [vm_compute; reflexivity |].
  exact (proj1 (weights_resolution_idempotent _ _ _ _ _ _ H)).
Defined.

(** C9 (amended).  [upscale] lets through no exception of class
    [Exception] raised by its work: what leaves it is outside
    [Exception] (a [KeyboardInterrupt]), unless the input cannot even be
    examined.  When the input can be examined and nothing interrupts
    the collaborators it returns a boolean, and a missing input file, a
    failed download of the weights, a failed load of the model, an input
    that does not decode, a failing forward pass and a failing encoder
    all give [False]: the return value does not tell them apart. *)
Theorem upscale_failures_return_False env self w ip op q :
  (forall e, fst (upscale env ip op q (self, w)) = Raise e ->
             is_Exception e = false \/ FS.denied w ip = true)
  /\ (NoInterrupt env -> FS.denied w ip = false ->
      (exists b, fst (upscale env ip op q (self, w)) = Ret b)
      /\ (failure_mode env self w ip op q ->
          fst (upscale env ip op q (self, w)) = Ret false)).
Proof.
  split.
  - intros e. apply upscale_raises.
  - intros calm Hd.
    destruct (upscale_total env calm ip op q self w Hd) as [b Hb].
    split; [exists b; exact Hb |].
    intros Hf. destruct b; [| exact Hb].
    exfalso.
    destruct (upscale env ip op q (self, w)) as [r st'] eqn:Hrun.
    simpl in Hb. subst r.
    exact (failure_not_true _ _ _ _ _ _ _ Hf Hrun).
Qed.

(** C9, as stated, fails: an interrupt during the forward pass leaves
    [upscale] as an exception. *)
Lemma upscale_propagates_interrupt :
  ~ (forall env ip op q st, exists b, fst (upscale env ip op q st) = Ret b).
Proof.
  intros H.
  destruct (H Demo.env_interrupted Demo.in1 Demo.out1 4%Q
              (Demo.session, Demo.w_one)) as [b Hb].
  vm_compute in Hb. discriminate Hb.
Qed.

(** The existence test stands before the [try]: when the input cannot
    be examined, its [OSError] leaves [upscale] as well. *)
Lemma upscale_propagates_stat_error :
  fst (upscale Demo.env Demo.locked Demo.out1 4 (Demo.session, Demo.w_one))
  = Raise (os_error "13" "Permission denied" "/locked/2.png").
Proof. vm_compute. reflexivity. Qed.

Lemma upscale_failures_return_False_witness :
  let call env ip := fst (upscale env ip Demo.out1 4 (Demo.session, Demo.w_one)) in
  call Demo.env (PathLib.of_string "/in/none.png") = Ret false
  /\ call Demo.env_offline Demo.in1 = Ret false
  /\ call Demo.env_bad_weights Demo.in1 = Ret false
  /\ call Demo.env Demo.in3 = Ret false
  /\ call Demo.env_oom Demo.in1 = Ret false
  /\ call Demo.env_no_encoder Demo.in1 = Ret false.
Proof.
  assert (Hfile : fs Demo.w_one !! PathLib.str Demo.in1 = Some (File "a"))
    by (vm_compute; reflexivity).
  assert (Hd1 : FS.denied Demo.w_one Demo.in1 = false) by reflexivity.
  intros call. unfold call.
  split; [| split; [| split; [| split; [| split]]]].
  - apply (upscale_failures_return_False Demo.env Demo.session Demo.w_one
             (PathLib.of_string "/in/none.png") Demo.out1 4).
    + apply demo_calm; discriminate.
    + reflexivity.
    + apply missing_input. vm_compute. reflexivity.
  - apply (upscale_failures_return_False Demo.env_offline Demo.session
             Demo.w_one Demo.in1 Demo.out1 4).
    + apply demo_calm; try discriminate.
      intros u e p H. injection H as <- _. reflexivity.
    + exact Hd1.
    + eapply download_failed; [reflexivity | vm_compute; reflexivity
                               | reflexivity].
  - apply (upscale_failures_return_False Demo.env_bad_weights Demo.session
             Demo.w_one Demo.in1 Demo.out1 4).
    + apply demo_calm; try discriminate.
      intros c sc nb e H. injection H as <-. reflexivity.
    + exact Hd1.
    + apply load_failed; [reflexivity | discriminate].
  - apply (upscale_failures_return_False Demo.env Demo.session Demo.w_one
             Demo.in3 Demo.out1 4).
    + apply demo_calm; discriminate.
    + reflexivity.
    + apply (undecodable _ _ _ _ _ _ "garbage");
        [vm_compute; reflexivity | discriminate].
  - apply (upscale_failures_return_False Demo.env_oom Demo.session Demo.w_one
             Demo.in1 Demo.out1 4).
    + apply demo_calm; try discriminate.
      intros u i q e H. injection H as <-. reflexivity.
    + exact Hd1.
    + apply (inference_failed _ _ _ _ _ _ "a" (Demo.img "a"));
        [exact Hfile | reflexivity | discriminate].
  - apply (upscale_failures_return_False Demo.env_no_encoder Demo.session
             Demo.w_one Demo.in1 Demo.out1 4).
    + apply demo_calm; discriminate.
    + exact Hd1.
    + apply encode_failed. discriminate.
Defined.


